(** * enjoy-new-relic: the demonstration web server of cmd/web/main.go

    A shallow embedding of [cmd/web/main.go]: the two route handlers, the
    instrumentation middleware [withNewRelic] and the log relay
    ([contextLogger.log] and [contextLogger.send]), followed by the
    properties the specification states about them.

    The program is glue between libraries, so its behaviour is a sequence
    of calls into the outside world.  Every such call is recorded, in
    program order, in a trace of [Event]s, and whatever the outside world
    answers (the clock, the peers of outbound HTTP calls, the
    instrumentation backend, the process environment) is read from an
    [Env].  Functions of the program are state-passing functions over the
    trace, written in the monad [M]. *)

From Stdlib Require Import ZArith Ascii DecimalString DecimalZ DecimalPos.
From stdpp Require Import base option list strings gmap.

Local Open Scope string_scope.
Local Open Scope Z_scope.
Local Open Scope list_scope.

(** ** Go values shared by the whole program *)

(** A Go [error].  [http.ErrServerClosed] is compared by identity in
    [run], so it is a constructor of its own; every other error is known
    by its message. *)
Inductive error :=
| ErrServerClosed
| ErrorString (msg : string).

Definition Error (e : error) : string :=
  match e with
  | ErrServerClosed => "http: Server closed"
  | ErrorString msg => msg
  end.

(** [fmt.Errorf(prefix + "%w", err)]. *)
Definition Errorf (prefix : string) (err : error) : error :=
  ErrorString (prefix +:+ Error err).

(** The pair [(value, error)] a fallible Go function returns. *)
Inductive result (A : Type) :=
| Ok (a : A)
| Err (err : error).
Arguments Ok {A} a.
Arguments Err {A} err.

(** The verb [%d] of [fmt]. *)
Definition fmt_d (n : Z) : string := NilZero.string_of_int (Z.to_int n).

(** Conversion of an [int64] to [uint64]: the same 64 bits, read unsigned. *)
Definition uint64 (n : Z) : Z := n mod 2 ^ 64.

(** Range of an [int64]. *)
Definition is_int64 (n : Z) : Prop := - 2 ^ 63 <= n < 2 ^ 63.

(** ** Transactions and contexts *)

(** A [*newrelic.Transaction]: the handle [app.StartTransaction] returns. *)
Record Transaction := {
  txn_id : nat;
  txn_name : string;
}.

(** A [context.Context], as far as the program looks into it: it is nil,
    or a chain of values in which a transaction may have been stored by
    [newrelic.NewContext]. *)
Inductive Context :=
| NilContext
| Background
| WithTransaction (parent : Context) (txn : Transaction).

(** [newrelic.FromContext]: the active transaction, or nil. *)
Definition FromContext (c : Context) : option Transaction :=
  match c with
  | WithTransaction _ txn => Some txn
  | _ => None
  end.

Definition NewContext (c : Context) (txn : Transaction) : Context :=
  WithTransaction c txn.

(** ** HTTP messages *)

Record URL := {
  Scheme : string;
  Host : string;
  Path : string;
}.

(** An [*http.Request], inbound or outbound. *)
Record Request := {
  req_Method : string;
  req_URL : URL;
  req_Header : gmap string string;
  req_Body : string;
  req_ctx : Context;
}.

(** [r.Context()] never returns nil: a request without a context has the
    background context. *)
Definition Request_Context (r : Request) : Context :=
  match req_ctx r with
  | NilContext => Background
  | c => c
  end.

Definition Request_WithContext (r : Request) (c : Context) : Request :=
  {| req_Method := req_Method r; req_URL := req_URL r;
     req_Header := req_Header r; req_Body := req_Body r; req_ctx := c |}.

(** [req.Header.Set]; keys are written in their canonical form. *)
Definition Request_Header_Set (k v : string) (r : Request) : Request :=
  {| req_Method := req_Method r; req_URL := req_URL r;
     req_Header := <[k := v]> (req_Header r); req_Body := req_Body r;
     req_ctx := req_ctx r |}.

(** [http.NewRequestWithContext].  The program only passes the method
    constants [http.MethodGet] and [http.MethodPost] and two literal URLs
    that parse, which are written here in parsed form; what is left to
    fail is the nil context. *)
Definition http_NewRequestWithContext
    (c : Context) (method : string) (u : URL) (body : string) : result Request :=
  match c with
  | NilContext => Err (ErrorString "net/http: nil Context")
  | _ => Ok {| req_Method := method; req_URL := u; req_Header := ∅;
               req_Body := body; req_ctx := c |}
  end.

Definition MethodGet : string := "GET".
Definition MethodPost : string := "POST".
Definition StatusInternalServerError : Z := 500.
Definition StatusOK : Z := 200.

(** ["https://aereal.org/"] *)
Definition fetch_url : URL :=
  {| Scheme := "https"; Host := "aereal.org"; Path := "/" |}.

(** ["https://log-api.newrelic.com/log/v1"] *)
Definition log_api_url : URL :=
  {| Scheme := "https"; Host := "log-api.newrelic.com"; Path := "/log/v1" |}.

(** An [*http.Response]; the program reads its status code only. *)
Record Response := {
  StatusCode : Z;
}.

(** An [http.ResponseWriter], with what has been written to it so far.
    [rw_Code] is [None] until the status line has been written. *)
Record ResponseWriter := {
  rw_Header : gmap string string;
  rw_Code : option Z;
  rw_Body : string;
}.

Definition NewResponseWriter : ResponseWriter :=
  {| rw_Header := ∅; rw_Code := None; rw_Body := EmptyString |}.

(** [w.Header().Set(k, v)]; keys are written in their canonical form. *)
Definition Header_Set (k v : string) (w : ResponseWriter) : ResponseWriter :=
  {| rw_Header := <[k := v]> (rw_Header w); rw_Code := rw_Code w;
     rw_Body := rw_Body w |}.

Definition Header_Del (k : string) (w : ResponseWriter) : ResponseWriter :=
  {| rw_Header := delete k (rw_Header w); rw_Code := rw_Code w;
     rw_Body := rw_Body w |}.

(** How a handler ends: it returns, or it panics. *)
Inductive Outcome :=
| Returned
| Panicked (v : string).

(** The [*newrelic.Application] of a successful [newrelic.NewApplication]. *)
Record Application := {
  app_name : string;
  app_license : string;
}.

(** The two HTTP clients: the package variable [httpClient], whose
    transport is wrapped by [newrelic.NewRoundTripper], and
    [http.DefaultClient]. *)
Inductive Client :=
| httpClient
| DefaultClient.

(** ** The trace of calls into the outside world *)

Inductive Event :=
| EvNewApplication (license : string)
| EvStartTransaction (txn : Transaction)
| EvSetWebRequestHTTP (txn : Transaction) (r : Request)
| EvSetWebResponse (txn : Transaction)
| EvEnd (txn : Transaction)
| EvDo (c : Client) (req : Request)
| EvPrintf (line : string)
| EvWriteHeader (code : Z) (header : gmap string string)
| EvWrite (data : string)
| EvListenAndServe (addr : string).

(** The outbound requests of a trace, in order.  [EvDo c req] is the call
    [c.Do(req)], the one place where the program puts an HTTP request on
    the network. *)
Definition outbound (tr : list Event) : list (Client * Request) :=
  omap (λ e, match e with EvDo c req => Some (c, req) | _ => None end) tr.

(** What the outside world answers.  Every answer may depend on all that
    happened before, so each reading takes the trace so far. *)
Record Env := {
  (** the process environment *)
  environ : gmap string string;
  (** whether [newrelic.NewApplication] fails *)
  app_error : list Event → string → option error;
  (** [time.Now().UnixNano()], an [int64] *)
  UnixNano : list Event → Z;
  (** the pairs of [txn.GetLinkingMetadata()] *)
  linking : list Event → Transaction → gmap string string;
  (** the outcome of [c.Do(req)]: the final response or a transport error *)
  round_trip : list Event → Client → Request → result Response;
  (** the requests the listener accepts, the answer of the router to a
      request that matches no route, and the error on which
      [http.ListenAndServe] returns *)
  accepted : list Request;
  unrouted : ResponseWriter → Request → list Event →
             (Outcome * ResponseWriter) * list Event;
  serve_error : error;
}.

(** ** The monad of the program: state passing over the trace *)

Definition M (A : Type) : Type := list Event → A * list Event.

#[global] Instance M_ret : MRet M := λ A a tr, (a, tr).
#[global] Instance M_bind : MBind M :=
  λ A B f m tr, let r := m tr in f r.1 r.2.

Definition emit (e : Event) : M unit := λ tr, (tt, tr ++ [e]).

(** Reading the outside world at the current point of the run. *)
Definition ask {A : Type} (f : list Event → A) : M A := λ tr, (f tr, tr).

(** ** encoding/json *)

(** A JSON document. *)
#[warnings="-register-all"] Inductive json :=
| JNull
| JBool (b : bool)
| JNumber (n : Z)
| JString (s : string)
| JArray (items : list json)
| JObject (members : list (string * json)).

Definition hex_digit (n : N) : ascii :=
  default "0"%char (String.get (N.to_nat n) "0123456789abcdef").

(** How the encoder writes one byte below 0x80 of a string: quote and
    backslash are escaped, the control characters, [<], [>] and [&] are
    written as [\u00XX] (five of the control characters have a short
    form), every other byte is copied. *)
Definition escape_byte (a : ascii) : string :=
  let n := N_of_ascii a in
  let short (c : ascii) := String "\" (String c EmptyString) in
  if bool_decide (n = 34 ∨ n = 92)%N then short a
  else if bool_decide (n = 8)%N then short "b"%char
  else if bool_decide (n = 12)%N then short "f"%char
  else if bool_decide (n = 10)%N then short "n"%char
  else if bool_decide (n = 13)%N then short "r"%char
  else if bool_decide (n = 9)%N then short "t"%char
  else if bool_decide (n < 32 ∨ n = 60 ∨ n = 62 ∨ n = 38)%N then
    "\u00" +:+ String (hex_digit (n / 16)) (String (hex_digit (n mod 16)) EmptyString)
  else String a EmptyString.

(** *** UTF-8, as [utf8.DecodeRuneInString] reads it *)

Definition in_range (lo hi : N) (a : ascii) : bool :=
  ((lo <=? N_of_ascii a) && (N_of_ascii a <=? hi))%N.

(** For the first byte of a multi-byte character: the range of the second
    byte and the number of bytes that follow the first.  The ranges leave
    out the over-long forms, the surrogates and what lies above U+10FFFF. *)
Definition utf8_second (a : ascii) : option (N * N * nat) :=
  if in_range 194 223 a then Some (128, 191, 1%nat)%N
  else if in_range 224 224 a then Some (160, 191, 2%nat)%N
  else if in_range 225 236 a then Some (128, 191, 2%nat)%N
  else if in_range 237 237 a then Some (128, 159, 2%nat)%N
  else if in_range 238 239 a then Some (128, 191, 2%nat)%N
  else if in_range 240 240 a then Some (144, 191, 3%nat)%N
  else if in_range 241 243 a then Some (128, 191, 3%nat)%N
  else if in_range 244 244 a then Some (128, 143, 3%nat)%N
  else None.

(** The next [n] bytes are continuation bytes. *)
Fixpoint continuation (n : nat) (s : string) : bool :=
  match n with
  | O => true
  | S n' =>
      match s with
      | EmptyString => false
      | String b s' => in_range 128 191 b && continuation n' s'
      end
  end.

(** When the byte [a] followed by [s] starts a well-formed multi-byte
    character: the number of bytes of the character after [a]. *)
Definition utf8_tail (a : ascii) (s : string) : option nat :=
  match utf8_second a, s with
  | Some (lo, hi, S n), String b s' =>
      if in_range lo hi b && continuation n s' then Some (S n) else None
  | _, _ => None
  end.

Fixpoint first_bytes (n : nat) (s : string) : string :=
  match n, s with
  | S n', String a s' => String a (first_bytes n' s')
  | _, _ => EmptyString
  end.

(** U+FFFD, the replacement character: the bytes EF BF BD. *)
Definition replacement : string :=
  String (ascii_of_nat 239) (String (ascii_of_nat 191) (String (ascii_of_nat 189) EmptyString)).

(** The escapes of U+2028 and U+2029 (the bytes E2 80 A8 and E2 80 A9). *)
Definition line_separator (a : ascii) (s : string) : option string :=
  match s with
  | String b (String c _) =>
      if in_range 226 226 a && in_range 128 128 b && in_range 168 168 c then Some "\u2028"
      else if in_range 226 226 a && in_range 128 128 b && in_range 169 169 c then Some "\u2029"
      else None
  | _ => None
  end.

(** A string with every byte that is not part of a well-formed character
    replaced by U+FFFD: what a reader of the encoder's output gets back.
    [skip] counts the bytes of a character already copied. *)
Fixpoint sanitize_from (skip : nat) (s : string) : string :=
  match s with
  | EmptyString => EmptyString
  | String a s' =>
      match skip with
      | S n => sanitize_from n s'
      | O =>
          if in_range 0 127 a then String a (sanitize_from 0 s')
          else
            match utf8_tail a s' with
            | Some n => String a (first_bytes n s') +:+ sanitize_from n s'
            | None => replacement +:+ sanitize_from 0 s'
            end
      end
  end.

Definition sanitize (s : string) : string := sanitize_from 0 s.

(** A string in which every byte is part of a well-formed character. *)
Fixpoint valid_from (skip : nat) (s : string) : bool :=
  match s with
  | EmptyString => true
  | String a s' =>
      match skip with
      | S n => valid_from n s'
      | O =>
          if in_range 0 127 a then valid_from 0 s'
          else
            match utf8_tail a s' with
            | Some n => valid_from n s'
            | None => false
            end
      end
  end.

Definition utf8_valid (s : string) : bool := valid_from 0 s.

(** How the encoder writes the content of a string, character by
    character: a byte below 0x80 by [escape_byte]; U+2028 and U+2029 as
    their escapes; any other well-formed character as it is; a byte that
    is not part of a well-formed character as the six characters of the
    escape of U+FFFD, which a reader takes for the bytes EF BF BD. *)
Fixpoint escape_from (skip : nat) (s : string) : string :=
  match s with
  | EmptyString => EmptyString
  | String a s' =>
      match skip with
      | S n => escape_from n s'
      | O =>
          if in_range 0 127 a then escape_byte a +:+ escape_from 0 s'
          else
            match utf8_tail a s' with
            | Some n =>
                match line_separator a s' with
                | Some esc => esc
                | None => String a (first_bytes n s')
                end +:+ escape_from n s'
            | None => "\ufffd" +:+ escape_from 0 s'
            end
      end
  end.

Definition escape (s : string) : string := escape_from 0 s.

Definition dquote : string := String (ascii_of_nat 34) EmptyString.

Definition quote (s : string) : string := dquote +:+ escape s +:+ dquote.

(** The text of a document, as [json.Marshal] writes it: no white space,
    members in the order given. *)
Fixpoint json_text (j : json) : string :=
  match j with
  | JNull => "null"
  | JBool true => "true"
  | JBool false => "false"
  | JNumber n => fmt_d n
  | JString s => quote s
  | JArray items =>
      "[" +:+
      (fix items_text (l : list json) : string :=
         match l with
         | [] => EmptyString
         | [j'] => json_text j'
         | j' :: l' => json_text j' +:+ "," +:+ items_text l'
         end) items
      +:+ "]"
  | JObject members =>
      "{" +:+
      (fix members_text (l : list (string * json)) : string :=
         match l with
         | [] => EmptyString
         | [(k, j')] => quote k +:+ ":" +:+ json_text j'
         | (k, j') :: l' => quote k +:+ ":" +:+ json_text j' +:+ "," +:+ members_text l'
         end) members
      +:+ "}"
  end.

(** The member of an object under a key. *)
Fixpoint member (k : string) (members : list (string * json)) : option json :=
  match members with
  | [] => None
  | (k', j) :: members' => if bool_decide (k' = k) then Some j else member k members'
  end.

(** *** Reading JSON text

    What a body is when parsed: a reader of JSON text for texts without
    white space and with whole numbers, which is what the encoder writes.
    A string is read with its escapes resolved, a character given by a
    [\u] escape as its UTF-8 bytes. *)

Definition hex_value (a : ascii) : option N :=
  if in_range 48 57 a then Some (N_of_ascii a - 48)%N
  else if in_range 97 102 a then Some (N_of_ascii a - 87)%N
  else if in_range 65 70 a then Some (N_of_ascii a - 55)%N
  else None.

Definition hex4 (a b c d : ascii) : option N :=
  match hex_value a, hex_value b, hex_value c, hex_value d with
  | Some x, Some y, Some z, Some w => Some (((x * 16 + y) * 16 + z) * 16 + w)%N
  | _, _, _, _ => None
  end.

Definition byte_string (n : N) : string := String (ascii_of_N n) EmptyString.

(** The UTF-8 bytes of a code point. *)
Definition utf8_encode (cp : N) : string :=
  (if cp <? 128 then byte_string cp
   else if cp <? 2048 then byte_string (192 + cp / 64) +:+ byte_string (128 + cp mod 64)
   else if cp <? 65536 then
     byte_string (224 + cp / 4096) +:+ byte_string (128 + cp / 64 mod 64) +:+
     byte_string (128 + cp mod 64)
   else
     byte_string (240 + cp / 262144) +:+ byte_string (128 + cp / 4096 mod 64) +:+
     byte_string (128 + cp / 64 mod 64) +:+ byte_string (128 + cp mod 64))%N.

Definition high_surrogate (cp : N) : bool := ((55296 <=? cp) && (cp <=? 56319))%N.
Definition low_surrogate (cp : N) : bool := ((56320 <=? cp) && (cp <=? 57343))%N.

Definition surrogate_pair (hi lo : N) : N :=
  (65536 + (hi - 55296) * 1024 + (lo - 56320))%N.

(** The character of a two-character escape. *)
Definition unescape (e : ascii) : option ascii :=
  if in_range 34 34 e || in_range 92 92 e || in_range 47 47 e then Some e
  else if in_range 98 98 e then Some (ascii_of_nat 8)
  else if in_range 102 102 e then Some (ascii_of_nat 12)
  else if in_range 110 110 e then Some (ascii_of_nat 10)
  else if in_range 114 114 e then Some (ascii_of_nat 13)
  else if in_range 116 116 e then Some (ascii_of_nat 9)
  else None.

Definition prepend (p : string) (r : option (string * string)) : option (string * string) :=
  match r with
  | Some (str, rest) => Some (p +:+ str, rest)
  | None => None
  end.

(** Reads the content of a string up to its closing quote and returns it
    with the text after the quote.  [hi] is a high surrogate read from a
    [\u] escape and not yet paired; an unpaired surrogate is read as
    U+FFFD.  A control character that is not escaped is refused. *)
Fixpoint read_string (hi : option N) (s : string) : option (string * string) :=
  let flush := match hi with Some _ => replacement | None => EmptyString end in
  match s with
  | EmptyString => None
  | String c s' =>
      if in_range 34 34 c then Some (flush, s')
      else if in_range 92 92 c then
        match s' with
        | EmptyString => None
        | String e r =>
            if in_range 117 117 e then
              match r with
              | String h1 (String h2 (String h3 (String h4 r'))) =>
                  match hex4 h1 h2 h3 h4 with
                  | None => None
                  | Some cp =>
                      if high_surrogate cp then prepend flush (read_string (Some cp) r')
                      else if low_surrogate cp then
                        match hi with
                        | Some h =>
                            prepend (utf8_encode (surrogate_pair h cp)) (read_string None r')
                        | None => prepend replacement (read_string None r')
                        end
                      else prepend (flush +:+ utf8_encode cp) (read_string None r')
                  end
              | _ => None
              end
            else
              match unescape e with
              | Some c' => prepend (flush +:+ String c' EmptyString) (read_string None r)
              | None => None
              end
        end
      else if in_range 0 31 c then None
      else prepend (flush +:+ String c EmptyString) (read_string None s')
  end.

Definition number_byte (a : ascii) : bool := in_range 48 57 a || in_range 45 45 a.

(** The longest prefix made of digits and minus signs, and the rest. *)
Fixpoint span_number (s : string) : string * string :=
  match s with
  | EmptyString => (EmptyString, EmptyString)
  | String a s' =>
      if number_byte a then (String a (span_number s').1, (span_number s').2)
      else (EmptyString, s)
  end.

(** Reads a whole number in the form the encoder writes: no leading zero,
    no minus sign before a zero. *)
Definition read_number (s : string) : option (Z * string) :=
  match NilZero.int_of_string (span_number s).1 with
  | Some d =>
      if String.eqb (fmt_d (Z.of_int d)) (span_number s).1
      then Some (Z.of_int d, (span_number s).2)
      else None
  | None => None
  end.

Fixpoint strip_prefix (p s : string) : option string :=
  match p, s with
  | EmptyString, _ => Some s
  | String a p', String b s' => if Ascii.eqb a b then strip_prefix p' s' else None
  | String _ _, EmptyString => None
  end.

(** The first byte of a text is the given one: the rest of the text. *)
Definition after (n : N) (s : string) : option string :=
  match s with
  | EmptyString => None
  | String c s' => if in_range n n c then Some s' else None
  end.

(** Reads one value and returns it with the text that follows it;
    [parse_items] reads the items of an array after its opening bracket,
    [parse_members] the members of an object after its opening brace.
    [fuel] bounds the number of nested calls. *)
Fixpoint parse_value (fuel : nat) (s : string) {struct fuel} : option (json * string) :=
  match fuel with
  | O => None
  | S fuel' =>
      match s with
      | EmptyString => None
      | String c s' =>
          if in_range 34 34 c then
            '(str, rest) ← read_string None s'; Some (JString str, rest)
          else if in_range 91 91 c then
            match after 93 s' with
            | Some rest => Some (JArray [], rest)
            | None => '(items, rest) ← parse_items fuel' s'; Some (JArray items, rest)
            end
          else if in_range 123 123 c then
            match after 125 s' with
            | Some rest => Some (JObject [], rest)
            | None => '(members, rest) ← parse_members fuel' s'; Some (JObject members, rest)
            end
          else if in_range 110 110 c then
            rest ← strip_prefix "null" s; Some (JNull, rest)
          else if in_range 116 116 c then
            rest ← strip_prefix "true" s; Some (JBool true, rest)
          else if in_range 102 102 c then
            rest ← strip_prefix "false" s; Some (JBool false, rest)
          else
            '(n, rest) ← read_number s; Some (JNumber n, rest)
      end
  end
with parse_items (fuel : nat) (s : string) {struct fuel} : option (list json * string) :=
  match fuel with
  | O => None
  | S fuel' =>
      '(j, rest) ← parse_value fuel' s;
      match after 44 rest, after 93 rest with
      | Some rest', _ =>
          '(items, rest'') ← parse_items fuel' rest'; Some (j :: items, rest'')
      | None, Some rest' => Some ([j], rest')
      | None, None => None
      end
  end
with parse_members (fuel : nat) (s : string) {struct fuel} :
    option (list (string * json) * string) :=
  match fuel with
  | O => None
  | S fuel' =>
      s' ← after 34 s;
      '(k, rest) ← read_string None s';
      rest' ← after 58 rest;
      '(j, rest'') ← parse_value fuel' rest';
      match after 44 rest'', after 125 rest'' with
      | Some rest3, _ =>
          '(members, rest4) ← parse_members fuel' rest3; Some ((k, j) :: members, rest4)
      | None, Some rest3 => Some ([(k, j)], rest3)
      | None, None => None
      end
  end.

(** The document of a JSON text; nothing may follow it. *)
Definition json_parse (s : string) : option json :=
  match parse_value (String.length s) s with
  | Some (j, EmptyString) => Some j
  | _ => None
  end.

(** A document as it is read back: every string with the bytes that are
    not part of a well-formed character replaced by U+FFFD. *)
Fixpoint received (j : json) : json :=
  match j with
  | JString s => JString (sanitize s)
  | JArray items => JArray (map received items)
  | JObject members => JObject (map (λ kv, (sanitize kv.1, received kv.2)) members)
  | _ => j
  end.

(** The number of values and list cells of a document. *)
Fixpoint json_size (j : json) : nat :=
  match j with
  | JArray items => S (list_sum (map (λ j', S (json_size j')) items))
  | JObject members => S (list_sum (map (λ kv, S (json_size kv.2)) members))
  | _ => 1
  end.

(** The items of an array and the members of an object, as [json_text]
    writes them between the brackets. *)
Fixpoint items_text (l : list json) : string :=
  match l with
  | [] => EmptyString
  | [j] => json_text j
  | j :: l' => json_text j +:+ "," +:+ items_text l'
  end.

Fixpoint members_text (l : list (string * json)) : string :=
  match l with
  | [] => EmptyString
  | [(k, j)] => quote k +:+ ":" +:+ json_text j
  | (k, j) :: l' => quote k +:+ ":" +:+ json_text j +:+ "," +:+ members_text l'
  end.

(** Every byte of a string passes a test. *)
Fixpoint all_bytes (test : ascii → bool) (s : string) : bool :=
  match s with
  | EmptyString => true
  | String a s' => test a && all_bytes test s'
  end.

(** A byte the reader of a string takes as it is: not a quote, not a
    backslash, not a control character. *)
Definition plain (a : ascii) : bool :=
  negb (in_range 34 34 a) && negb (in_range 92 92 a) && negb (in_range 0 31 a).

(** A text that can follow a value: nothing, a comma, or a closing
    bracket or brace. *)
Definition ends_value (s : string) : bool :=
  match s with
  | EmptyString => true
  | String c _ => in_range 44 44 c || in_range 93 93 c || in_range 125 125 c
  end.

(** The reader gives back the document of a text, whatever follows the
    text, when it has fuel for the size of the document. *)
Definition reads_back (j : json) : Prop :=
  ∀ (fuel : nat) (k : string),
    (json_size j ≤ fuel)%nat → ends_value k = true →
    parse_value fuel (json_text j +:+ k) = Some (received j, k).

(** *** Go values and their documents *)

(** A value held in an [interface{}].  [VUnsupported] is a value of a
    type [json.Marshal] refuses, a function or a channel, with the name
    of its type (as in [func()] or [chan int]). *)
Inductive value :=
| VNil
| VBool (b : bool)
| VInt (n : Z)
| VUint64 (n : Z)
| VString (s : string)
| VUnsupported (type : string).

(** [result] as a monad. *)
#[global] Instance result_ret : MRet result := λ A a, Ok a.
#[global] Instance result_bind : MBind result :=
  λ A B f r, match r with Ok a => f a | Err err => Err err end.
#[global] Instance result_fmap : FMap result :=
  λ A B f r, match r with Ok a => Ok (f a) | Err err => Err err end.

(** The value of a result, when it is not an error. *)
Definition result_value {A : Type} (r : result A) : option A :=
  match r with
  | Ok a => Some a
  | Err _ => None
  end.

(** [*json.UnsupportedTypeError] *)
Definition UnsupportedTypeError (type : string) : error :=
  ErrorString ("json: unsupported type: " +:+ type).

Definition value_json (v : value) : result json :=
  match v with
  | VNil => Ok JNull
  | VBool b => Ok (JBool b)
  | VInt n => Ok (JNumber n)
  | VUint64 n => Ok (JNumber n)
  | VString s => Ok (JString s)
  | VUnsupported type => Err (UnsupportedTypeError type)
  end.

(** [type logBody map[string]interface{}] *)
Abbreviation logBody := (gmap string value).

(** A Go slice: nil, or a sequence of items.  A list stands for the slice
    of its items. *)
Inductive slice (A : Type) :=
| nil_slice
| Slice (items : list A).
Arguments nil_slice {A}.
Arguments Slice {A} items.
Coercion Slice : list >-> slice.

(** [type detailedLog struct { Logs []logBody `json:"logs"` }] *)
Record detailedLog := {
  Logs : slice logBody;
}.

(** The encoder writes the entries of a map sorted by key. *)
Fixpoint insert_by_key {A : Type} (kv : string * A) (l : list (string * A)) :
    list (string * A) :=
  match l with
  | [] => [kv]
  | kv' :: l' =>
      if String.leb kv.1 kv'.1 then kv :: l else kv' :: insert_by_key kv l'
  end.

Definition sort_by_key {A : Type} (l : list (string * A)) : list (string * A) :=
  foldr insert_by_key [] l.

(** The document of a map.  The encoder stops at the first value it
    refuses, in the order of the keys. *)
Definition logBody_json (m : logBody) : result json :=
  JObject <$> mapM (λ kv, pair kv.1 <$> value_json kv.2) (sort_by_key (map_to_list m)).

(** The document of a slice of maps: [null] for the nil slice. *)
Definition logs_json (logs : slice logBody) : result json :=
  match logs with
  | nil_slice => Ok JNull
  | Slice items => JArray <$> mapM logBody_json items
  end.

Definition detailedLog_json (d : detailedLog) : result json :=
  logs ← logs_json (Logs d);
  Ok (JObject [("logs", logs)]).

(** The document of a [[]detailedLog]. *)
Definition batch_json (ds : list detailedLog) : result json :=
  JArray <$> mapM detailedLog_json ds.

(** [json.Marshal] of a [[]detailedLog] given by a slice literal.  A nil
    map, which the encoder writes as [null], is not told apart from an
    empty one. *)
Definition json_Marshal (ds : list detailedLog) : result string :=
  json_text <$> batch_json ds.

(** The document of [struct{ Status int }]. *)
Definition status_json (status : Z) : json := JObject [("Status", JNumber status)].

(** ** The logcontext package *)

(** Modelled from the spec: the package [logcontext] of the
    instrumentation library is not part of the repository.  The spec
    calls [logcontext.KeyTimestamp] and [logcontext.KeyMessage] the
    timestamp field and the message field of a Log Record; the package
    spells them as below. *)
Definition KeyTimestamp : string := "timestamp".
Definition KeyMessage : string := "message".

(** Modelled from the spec: [logcontext.AddLinkingMetadata] copies all the
    linking-metadata pairs of the transaction into the record; the pairs
    (trace id, span id, entity id) are strings. *)
Definition AddLinkingMetadata (m : logBody) (md : gmap string string) : logBody :=
  (VString <$> md) ∪ m.

(** ** The program *)

Definition newline : string := String (ascii_of_nat 10) EmptyString.

Section Program.

Context (env : Env).

(** *** Library calls *)

(** [os.Getenv]: the empty string when the variable is unset. *)
Definition os_Getenv (key : string) : M string :=
  mret (default EmptyString (environ env !! key)).

Definition log_Printf (line : string) : M unit := emit (EvPrintf line).

(** [log.Fatal]: prints the error and exits with status 1. *)
Definition log_Fatal (err : error) : M Z :=
  _ ← emit (EvPrintf (Error err));
  mret 1.

Definition time_Now_UnixNano : M Z := ask (UnixNano env).

Definition GetLinkingMetadata (txn : Transaction) : M (gmap string string) :=
  ask (λ tr, linking env tr txn).

(** [c.Do(req)] *)
Definition Client_Do (c : Client) (req : Request) : M (result Response) :=
  λ tr, (round_trip env tr c req, tr ++ [EvDo c req]).

Definition newrelic_NewApplication (license : string) : M (result Application) :=
  λ tr,
    (match app_error env tr license with
     | Some err => Err err
     | None => Ok {| app_name := "aereal-test"; app_license := license |}
     end,
     tr ++ [EvNewApplication license]).

(** [app.StartTransaction(name)]: a new transaction handle. *)
Definition StartTransaction (app : Application) (name : string) : M Transaction :=
  λ tr,
    let txn := {| txn_id := length tr; txn_name := name |} in
    (txn, tr ++ [EvStartTransaction txn]).

Definition SetWebRequestHTTP (txn : Transaction) (r : Request) : M unit :=
  emit (EvSetWebRequestHTTP txn r).

(** [txn.SetWebResponse(w)]; the program drops the writer it returns. *)
Definition SetWebResponse (txn : Transaction) (w : ResponseWriter) : M unit :=
  emit (EvSetWebResponse txn).

Definition End (txn : Transaction) : M unit := emit (EvEnd txn).

(** [newrelic.RequestWithTransactionContext] *)
Definition RequestWithTransactionContext (r : Request) (txn : Transaction) : Request :=
  Request_WithContext r (NewContext (Request_Context r) txn).

(** [w.WriteHeader(code)]; a second call is ignored. *)
Definition WriteHeader (code : Z) (w : ResponseWriter) : M ResponseWriter :=
  match rw_Code w with
  | Some _ => mret w
  | None =>
      _ ← emit (EvWriteHeader code (rw_Header w));
      mret {| rw_Header := rw_Header w; rw_Code := Some code; rw_Body := rw_Body w |}
  end.

(** [w.Write(data)]; the first write sends status 200 if none was sent. *)
Definition Write (data : string) (w : ResponseWriter) : M ResponseWriter :=
  w' ← WriteHeader StatusOK w;
  _ ← emit (EvWrite data);
  mret {| rw_Header := rw_Header w'; rw_Code := rw_Code w';
          rw_Body := rw_Body w' +:+ data |}.

Definition fmt_Fprintln (w : ResponseWriter) (s : string) : M ResponseWriter :=
  Write (s +:+ newline) w.

(** [http.Error] *)
Definition http_Error (w : ResponseWriter) (msg : string) (code : Z) : M ResponseWriter :=
  let w := Header_Del "Content-Length" w in
  let w := Header_Set "Content-Type" "text/plain; charset=utf-8" w in
  let w := Header_Set "X-Content-Type-Options" "nosniff" w in
  w ← WriteHeader code w;
  fmt_Fprintln w msg.

(** [json.NewEncoder(w).Encode(v)]: the text of the document and a newline. *)
Definition Encode (w : ResponseWriter) (j : json) : M ResponseWriter :=
  Write (json_text j +:+ newline) w.

(** [defer f()]: [f] runs when the surrounding function returns and when
    it panics; the outcome goes on to the caller. *)
Definition defer {A : Type} (f : M unit) (body : M A) : M A :=
  res ← body;
  _ ← f;
  mret res.

(** *** The log relay *)

Record contextLogger := {
  apiKey : string;
}.

Definition send (l : contextLogger) (c : Context) (datas : slice logBody) :
    M (option error) :=
  match json_Marshal [{| Logs := datas |}] with
  | Err err => mret (Some (Errorf "json.Marshal: " err))
  | Ok j =>
      match http_NewRequestWithContext c MethodPost log_api_url j with
      | Err err => mret (Some (Errorf "NewRequest: " err))
      | Ok req =>
          let req := Request_Header_Set "X-License-Key" (apiKey l) req in
          let req := Request_Header_Set "Content-Type" "application/json" req in
          res ← Client_Do DefaultClient req;
          match res with
          | Err err => mret (Some (Errorf "Do: " err))
          | Ok resp =>
              _ ← log_Printf ("post log status=" +:+ fmt_d (StatusCode resp));
              mret None
          end
      end
  end.

(** The Log Record of [log]: the statements between the lookup of the
    transaction and the call of [send]. *)
Definition buildRecord (txn : Transaction) (msg : string) : M logBody :=
  let data : logBody := ∅ in
  md ← GetLinkingMetadata txn;
  let data := AddLinkingMetadata data md in
  now ← time_Now_UnixNano;
  let data := <[KeyTimestamp := VUint64 (uint64 now / uint64 (1000 * 1000))]> data in
  let data := <[KeyMessage := VString msg]> data in
  mret data.

Definition log (l : contextLogger) (c : Context) (msg : string) : M unit :=
  match FromContext c with
  | None => mret tt
  | Some txn =>
      data ← buildRecord txn msg;
      err ← send l c [data];
      match err with
      | Some err => log_Printf ("! error=" +:+ Error err)
      | None => mret tt
      end
  end.

(** *** The middleware *)

Definition Handler : Type := ResponseWriter → Request → M (Outcome * ResponseWriter).

Definition withNewRelic (app : Application) (next : Handler) : Handler :=
  λ w r,
    txn ← StartTransaction app (req_Method r +:+ " " +:+ Path (req_URL r));
    defer (End txn) (
      let r := RequestWithTransactionContext r txn in
      _ ← SetWebRequestHTTP txn r;
      _ ← SetWebResponse txn w;
      next w r).

(** *** The routes *)

(** [GET /] *)
Definition handleRoot (w : ResponseWriter) (r : Request) (params : gmap string string) :
    M (Outcome * ResponseWriter) :=
  w ← fmt_Fprintln w "OK";
  mret (Returned, w).

(** [GET /fetch] *)
Definition handleFetch (cl : contextLogger)
    (w : ResponseWriter) (r : Request) (params : gmap string string) :
    M (Outcome * ResponseWriter) :=
  let c := Request_Context r in
  match http_NewRequestWithContext c MethodGet fetch_url EmptyString with
  | Err err =>
      w ← http_Error w ("cannot build request: " +:+ Error err) StatusInternalServerError;
      mret (Returned, w)
  | Ok req =>
      res ← Client_Do httpClient req;
      match res with
      | Err err =>
          w ← http_Error w ("failed to send request: " +:+ Error err) StatusInternalServerError;
          mret (Returned, w)
      | Ok resp =>
          _ ← log cl c ("done fetch: status=" +:+ fmt_d (StatusCode resp));
          let w := Header_Set "Content-Type" "application/json" w in
          w ← Encode w (status_json (StatusCode resp));
          mret (Returned, w)
      end
  end.

(** The router after [mux.UseHandler], [mux.GET("/")] and
    [mux.GET("/fetch")]: each route runs inside the middleware. *)
Definition mux (app : Application) (cl : contextLogger) : Handler :=
  λ w r,
    if bool_decide (req_Method r = MethodGet ∧ Path (req_URL r) = "/") then
      withNewRelic app (λ w r, handleRoot w r ∅) w r
    else if bool_decide (req_Method r = MethodGet ∧ Path (req_URL r) = "/fetch") then
      withNewRelic app (λ w r, handleFetch cl w r ∅) w r
    else unrouted env w r.

(** *** Start-up *)

(** The server runs the handler on each accepted request with a new
    writer; it recovers a panic of the handler and goes on. *)
Fixpoint serve (h : Handler) (rs : list Request) : M unit :=
  match rs with
  | [] => mret tt
  | r :: rs' =>
      _ ← h NewResponseWriter r;
      serve h rs'
  end.

(** [http.ListenAndServe]: binds the listener, serves what it accepts
    (one request after the other here) and returns an error, never nil. *)
Definition http_ListenAndServe (addr : string) (h : Handler) : M error :=
  _ ← emit (EvListenAndServe addr);
  _ ← serve h (accepted env);
  mret (serve_error env).

Definition run : M (option error) :=
  nrLicense ← os_Getenv "NEWRELIC_LICENSE_KEY";
  if bool_decide (nrLicense = EmptyString) then
    mret (Some (ErrorString "NEWRELIC_LICENSE_KEY required"))
  else
    res ← newrelic_NewApplication nrLicense;
    match res with
    | Err err => mret (Some (Errorf "cannot build new relic app: " err))
    | Ok app =>
        let cl := {| apiKey := nrLicense |} in
        _ ← log_Printf "start server";
        err ← http_ListenAndServe ":8000" (mux app cl);
        match err with
        | ErrServerClosed => mret None
        | _ => mret (Some err)
        end
    end.

(** [main] with the exit status of the process as its result. *)
Definition main : M Z :=
  err ← run;
  match err with
  | Some err => log_Fatal err
  | None => mret 0
  end.

End Program.

(** ** Names for the statements *)

(** The request [send] hands to [http.DefaultClient] for a serialized
    batch. *)
Definition relay_request (l : contextLogger) (c : Context) (body : string) : Request :=
  {| req_Method := MethodPost; req_URL := log_api_url;
     req_Header := <["Content-Type" := "application/json"]> (<["X-License-Key" := apiKey l]> ∅);
     req_Body := body; req_ctx := c |}.

(** The requests a trace hands to [http.DefaultClient], the client of the
    relay. *)
Definition relay_posts (tr : list Event) : list Request :=
  omap (λ e, match e with EvDo DefaultClient req => Some req | _ => None end) tr.

(** The request the handler of [GET /fetch] builds. *)
Definition fetch_request (r : Request) : Request :=
  {| req_Method := MethodGet; req_URL := fetch_url; req_Header := ∅;
     req_Body := EmptyString; req_ctx := Request_Context r |}.

(** A response writer as the server hands it to a handler: nothing
    written yet. *)
Definition unwritten (h : gmap string string) : ResponseWriter :=
  {| rw_Header := h; rw_Code := None; rw_Body := EmptyString |}.

(** The headers [http.Error] leaves on a writer. *)
Definition error_header (h : gmap string string) : gmap string string :=
  <["X-Content-Type-Options" := "nosniff"]>
    (<["Content-Type" := "text/plain; charset=utf-8"]> (delete "Content-Length" h)).

(** The transaction the middleware starts for a request, when the trace
    so far is [tr]. *)
Definition request_txn (r : Request) (tr : list Event) : Transaction :=
  {| txn_id := length tr; txn_name := req_Method r +:+ " " +:+ Path (req_URL r) |}.

(** ** A sample outside world

    Used to run the program on concrete inputs: the licence key is set,
    the clock reads 2023-11-14T22:13:20.123456789Z, the fetch is answered
    with 200 and the ingestion endpoint with 503. *)

Definition sample_request (path : string) : Request :=
  {| req_Method := MethodGet;
     req_URL := {| Scheme := EmptyString; Host := EmptyString; Path := path |};
     req_Header := ∅; req_Body := EmptyString; req_ctx := Background |}.

Definition sample_env : Env :=
  {| environ := {[ "NEWRELIC_LICENSE_KEY" := "0123456789abcdef" ]};
     app_error := λ _ _, None;
     UnixNano := λ _, 1700000000123456789;
     linking := λ _ _, {[ "trace.id" := "4bf92f35"; "span.id" := "00f067aa" ]};
     round_trip := λ _ c _,
       match c with
       | httpClient => Ok {| StatusCode := 200 |}
       | DefaultClient => Ok {| StatusCode := 503 |}
       end;
     accepted := [sample_request "/fetch"; sample_request "/"];
     unrouted := λ w _ tr, ((Returned, w), tr);
     serve_error := ErrServerClosed |}.

(** The same world with the network down. *)
Definition offline_env : Env :=
  {| environ := environ sample_env;
     app_error := app_error sample_env;
     UnixNano := UnixNano sample_env;
     linking := linking sample_env;
     round_trip := λ _ _ _, Err (ErrorString "dial tcp: connection refused");
     accepted := accepted sample_env;
     unrouted := unrouted sample_env;
     serve_error := serve_error sample_env |}.

(** The same world without the licence key. *)
Definition unconfigured_env : Env :=
  {| environ := ∅;
     app_error := app_error sample_env;
     UnixNano := UnixNano sample_env;
     linking := linking sample_env;
     round_trip := round_trip sample_env;
     accepted := accepted sample_env;
     unrouted := unrouted sample_env;
     serve_error := serve_error sample_env |}.

(** The same world with the clock one nanosecond before the epoch. *)
Definition early_env : Env :=
  {| environ := environ sample_env;
     app_error := app_error sample_env;
     UnixNano := λ _, -1;
     linking := linking sample_env;
     round_trip := round_trip sample_env;
     accepted := accepted sample_env;
     unrouted := unrouted sample_env;
     serve_error := serve_error sample_env |}.

(** The same world with a transaction whose linking metadata uses the
    keys of the timestamp and of the message. *)
Definition clashing_env : Env :=
  {| environ := environ sample_env;
     app_error := app_error sample_env;
     UnixNano := UnixNano sample_env;
     linking := λ _ _, {[ "timestamp" := "never"; "message" := "none";
                          "trace.id" := "4bf92f35" ]};
     round_trip := round_trip sample_env;
     accepted := accepted sample_env;
     unrouted := unrouted sample_env;
     serve_error := serve_error sample_env |}.

Definition sample_txn : Transaction := {| txn_id := 0; txn_name := "GET /fetch" |}.
Definition sample_logger : contextLogger := {| apiKey := "0123456789abcdef" |}.
Definition sample_app : Application :=
  {| app_name := "aereal-test"; app_license := "0123456789abcdef" |}.

(** A context with an active transaction. *)
Definition sample_ctx : Context := WithTransaction Background sample_txn.

(** A message that is not valid UTF-8, the bytes 61 FF 62, and what a
    reader of the encoder's output gets for it, the bytes 61 EF BF BD 62. *)
Definition broken_msg : string :=
  String "a" (String (ascii_of_nat 255) (String "b" EmptyString)).

Definition mended_msg : string := "a" +:+ replacement +:+ "b".

(** A batch of one record, its text, and the request [send] builds for it
    before the headers are set. *)
Definition sample_datas : list logBody := [{[ KeyMessage := VString "hello" ]}].

Definition sample_body : string :=
  json_text (JArray [JObject [("logs", JArray [JObject [("message", JString "hello")]])]]).

Definition sample_post : Request :=
  {| req_Method := MethodPost; req_URL := log_api_url; req_Header := ∅;
     req_Body := sample_body; req_ctx := sample_ctx |}.

Definition sample_sent : Request :=
  Request_Header_Set "Content-Type" "application/json"
    (Request_Header_Set "X-License-Key" (apiKey sample_logger) sample_post).

(** A handler that panics after writing nothing. *)
Definition panicking : Handler :=
  λ w _ tr, ((Panicked "runtime error: index out of range", w), tr).

(** ** Names for the statements about the whole server *)

#[global] Instance Transaction_eq_dec : EqDecision Transaction.
Proof. solve_decision. Defined.

(** A request for one of the two routes registered in [run]. *)
Definition routed (r : Request) : Prop :=
  req_Method r = MethodGet ∧ (Path (req_URL r) = "/" ∨ Path (req_URL r) = "/fetch").

(** A record with a value [json.Marshal] refuses. *)
Definition unsupported (m : logBody) : Prop :=
  ∃ k type, m !! k = Some (VUnsupported type).

(** The transactions that have been started and not ended, newest first:
    [txn.End()] closes the newest start of its transaction. *)
Fixpoint close_txn (txn : Transaction) (open : list Transaction) : list Transaction :=
  match open with
  | [] => []
  | txn' :: open' =>
      if decide (txn' = txn) then open' else txn' :: close_txn txn open'
  end.

Definition open_step (open : list Transaction) (e : Event) : list Transaction :=
  match e with
  | EvStartTransaction txn => txn :: open
  | EvEnd txn => close_txn txn open
  | _ => open
  end.

Definition open_transactions (tr : list Event) : list Transaction :=
  foldl open_step [] tr.

(** The sample world with an instrumentation backend that refuses the
    application, with an empty licence key, and with a listener that
    cannot bind its port. *)
Definition refused_env : Env :=
  {| environ := environ sample_env;
     app_error := λ _ _, Some (ErrorString "license length is not 40");
     UnixNano := UnixNano sample_env;
     linking := linking sample_env;
     round_trip := round_trip sample_env;
     accepted := accepted sample_env;
     unrouted := unrouted sample_env;
     serve_error := serve_error sample_env |}.

Definition empty_key_env : Env :=
  {| environ := {[ "NEWRELIC_LICENSE_KEY" := EmptyString ]};
     app_error := app_error sample_env;
     UnixNano := UnixNano sample_env;
     linking := linking sample_env;
     round_trip := round_trip sample_env;
     accepted := accepted sample_env;
     unrouted := unrouted sample_env;
     serve_error := serve_error sample_env |}.

Definition port_taken_env : Env :=
  {| environ := environ sample_env;
     app_error := app_error sample_env;
     UnixNano := UnixNano sample_env;
     linking := linking sample_env;
     round_trip := round_trip sample_env;
     accepted := [];
     unrouted := unrouted sample_env;
     serve_error := ErrorString "listen tcp :8000: bind: address already in use" |}.


(** The events of a response: the status line and the body. *)
Definition is_response (e : Event) : Prop :=
  match e with
  | EvWriteHeader _ _ | EvWrite _ => True
  | _ => False
  end.

(** The events that neither start nor end a transaction. *)
Definition is_plain (e : Event) : Prop :=
  match e with
  | EvStartTransaction _ | EvEnd _ => False
  | _ => True
  end.

(** A request of the relay as [run] configures it: a POST to the
    ingestion endpoint with the given licence key. *)
Definition relay_post_with (key : string) (req : Request) : Prop :=
  req_Method req = MethodPost ∧
  req_URL req = log_api_url ∧
  req_Header req !! "X-License-Key" = Some key.

(** The transactions a trace starts, in order. *)
Definition started (tr : list Event) : list Transaction :=
  omap (λ e, match e with EvStartTransaction txn => Some txn | _ => None end) tr.

(** The transaction of the middleware for the sample request of
    [GET /fetch] on an empty trace, and the request the handler sees. *)
Definition sample_fetch_txn : Transaction := request_txn (sample_request "/fetch") [].

Definition sample_fetch_seen : Request :=
  Request_WithContext (sample_request "/fetch")
    (NewContext (Request_Context (sample_request "/fetch")) sample_fetch_txn).

(** The trace on which the handler of the sample [GET /fetch] starts. *)
Definition sample_fetch_started : list Event :=
  [] ++ [EvStartTransaction sample_fetch_txn;
         EvSetWebRequestHTTP sample_fetch_txn sample_fetch_seen;
         EvSetWebResponse sample_fetch_txn].

(** ** Lemmas on the encoder *)

Lemma insert_by_key_perm {A : Type} (kv : string * A) (l : list (string * A)) :
  insert_by_key kv l ≡ₚ kv :: l.
Proof.
  induction l as [|kv' l IH]; simpl; [done|].
  destruct (String.leb kv.1 kv'.1); [done|].
  rewrite IH. apply Permutation_swap.
Qed.

Lemma sort_by_key_perm {A : Type} (l : list (string * A)) : sort_by_key l ≡ₚ l.
Proof.
  induction l as [|kv l IH]; simpl; [done|].
  unfold sort_by_key in *. simpl. by rewrite insert_by_key_perm, IH.
Qed.

(** In an object whose keys are distinct, [member] finds every member. *)
Lemma member_elem_of (k : string) (j : json) (members : list (string * json)) :
  NoDup members.*1 → (k, j) ∈ members → member k members = Some j.
Proof.
  induction members as [|[k' j'] members IH]; simpl; intros Hnd Hin.
  - by apply elem_of_nil in Hin.
  - apply NoDup_cons in Hnd as [Hk' Hnd].
    apply elem_of_cons in Hin as [Heq|Hin].
    + inversion Heq; subst. by rewrite bool_decide_eq_true_2.
    + rewrite bool_decide_eq_false_2; [by apply IH|].
      intros ->. apply Hk'. apply list_elem_of_fmap. by exists (k, j).
Qed.

Lemma member_None (k : string) (members : list (string * json)) :
  k ∉ members.*1 → member k members = None.
Proof.
  induction members as [|[k' j'] members IH]; simpl; intros Hin; [done|].
  apply not_elem_of_cons in Hin as [Hne Hin].
  rewrite bool_decide_eq_false_2 by done. by apply IH.
Qed.

(** [mapM] over results: every item has a value, or the error is that of
    one of the items. *)
Lemma mapM_Ok {A B : Type} (f : A → result B) (l : list A) (k : list B) :
  mapM f l = Ok k → Forall2 (λ x y, f x = Ok y) l k.
Proof.
  revert k. induction l as [|x l IH]; intros k; cbn [mapM].
  - intros [= <-]. constructor.
  - destruct (f x) as [y|e] eqn:Hx; [|discriminate]. cbn.
    destruct (mapM f l) as [k'|e] eqn:Hl; [|discriminate]. cbn.
    intros [= <-]. constructor; [done|]. by apply IH.
Qed.

Lemma mapM_all_Ok {A B : Type} (f : A → result B) (l : list A) :
  Forall (λ x, ∃ y, f x = Ok y) l → ∃ k, mapM f l = Ok k.
Proof.
  induction 1 as [|x l [y Hy] _ [k Hk]]; cbn [mapM]; [by eexists|].
  rewrite Hy. cbn. rewrite Hk. cbn. by eexists.
Qed.



(** The members the encoder writes for a map are the entries of the map. *)
Lemma logBody_json_members (m : logBody) (j : json) :
  logBody_json m = Ok j →
  ∃ members, j = JObject members ∧
    ∀ k, member k members = m !! k ≫= (λ v, result_value (value_json v)).
Proof.
  unfold logBody_json. intros Hj.
  destruct (mapM _ _) as [members|] eqn:Hm; [|discriminate].
  injection Hj as <-. exists members. split; [done|]. intros k.
  apply mapM_Ok in Hm.
  assert (Hkeys : members.*1 = (sort_by_key (map_to_list m)).*1).
  { clear -Hm. induction Hm as [|kv y l k' Hy _ IH]; [done|].
    destruct (value_json kv.2); [|discriminate]. injection Hy as <-.
    rewrite !fmap_cons. by f_equal. }
  assert (Hnd : NoDup members.*1).
  { rewrite Hkeys, sort_by_key_perm. apply NoDup_fst_map_to_list. }
  destruct (m !! k) as [v|] eqn:Hk; simpl.
  - apply elem_of_map_to_list in Hk. rewrite <- sort_by_key_perm in Hk.
    apply list_elem_of_lookup in Hk as [i Hi].
    destruct (Forall2_lookup_l _ _ _ _ _ Hm Hi) as (y & Hy & Hf).
    simpl in Hf. destruct (value_json v) as [j'|]; [|discriminate].
    injection Hf as <-. simpl. apply member_elem_of; [done|].
    apply list_elem_of_lookup. by exists i.
  - apply member_None. rewrite Hkeys, sort_by_key_perm.
    intros Hin. apply list_elem_of_fmap in Hin as ([k' v] & -> & Hin).
    apply elem_of_map_to_list in Hin. simpl in Hk. congruence.
Qed.

(** A map without unsupported values has a document. *)
Lemma logBody_json_Ok (m : logBody) :
  ¬ unsupported m → ∃ j, logBody_json m = Ok j.
Proof.
  intros Hm. unfold logBody_json.
  destruct (mapM_all_Ok (λ kv : string * value, pair kv.1 <$> value_json kv.2)
              (sort_by_key (map_to_list m))) as [members Hmembers].
  { apply Forall_forall. intros [k v] Hin. simpl.
    rewrite sort_by_key_perm in Hin. apply elem_of_map_to_list in Hin.
    destruct v; simpl; try by eexists.
    destruct Hm. by exists k, type. }
  rewrite Hmembers. by eexists.
Qed.



(** ** Lemmas on the reader *)

Lemma append_cons (x : ascii) (a b : string) : String x a +:+ b = String x (a +:+ b).
Proof. reflexivity. Qed.

Lemma append_nil_l (s : string) : EmptyString +:+ s = s.
Proof. reflexivity. Qed.

Lemma append_assoc (a b c : string) : (a +:+ b) +:+ c = a +:+ b +:+ c.
Proof. induction a as [|x a IH]; [done|]. rewrite !append_cons. by f_equal. Qed.

Lemma append_nil_r (s : string) : s +:+ EmptyString = s.
Proof. induction s as [|x s IH]; [done|]. rewrite append_cons. by f_equal. Qed.

Lemma length_append (a b : string) :
  String.length (a +:+ b) = (String.length a + String.length b)%nat.
Proof.
  induction a as [|x a IH]; [done|]. rewrite append_cons. cbn [String.length].
  by rewrite IH.
Qed.

Lemma in_range_eq (n : N) (a : ascii) :
  in_range n n a = true → a = ascii_of_N n.
Proof.
  unfold in_range. intros H. apply andb_prop in H as [H1 H2].
  apply N.leb_le in H1, H2. rewrite <- (ascii_N_embedding a). f_equal. lia.
Qed.

Lemma prepend_append (p q : string) (r : option (string * string)) :
  prepend p (prepend q r) = prepend (p +:+ q) r.
Proof. destruct r as [[str rest]|]; [|done]. cbn. by rewrite append_assoc. Qed.

Lemma prepend_nil (r : option (string * string)) : prepend EmptyString r = r.
Proof. by destruct r as [[str rest]|]. Qed.

Lemma read_string_plain (p rest : string) :
  all_bytes plain p = true →
  read_string None (p +:+ rest) = prepend p (read_string None rest).
Proof.
  induction p as [|a p IH]; intros Hp.
  - by rewrite append_nil_l, prepend_nil.
  - cbn in Hp. apply andb_prop in Hp as [Ha Hp].
    unfold plain in Ha. apply andb_prop in Ha as [Ha H3]. apply andb_prop in Ha as [H1 H2].
    apply negb_true_iff in H1, H2, H3.
    rewrite append_cons. cbn [read_string]. rewrite H1, H2, H3, (IH Hp).
    by rewrite append_nil_l, prepend_append.
Qed.

Lemma read_string_escape_byte (a : ascii) (rest : string) :
  in_range 0 127 a = true →
  read_string None (escape_byte a +:+ rest) =
    prepend (String a EmptyString) (read_string None rest).
Proof.
  destruct a as [[] [] [] [] [] [] [] []]; intros Ha; try discriminate Ha; reflexivity.
Qed.

(** *** Multi-byte characters *)

Lemma plain_high (b : ascii) : in_range 128 255 b = true → plain b = true.
Proof. destruct b as [[] [] [] [] [] [] [] []]; intros Hb; try discriminate Hb; reflexivity. Qed.

Lemma not_ascii_high (a : ascii) : in_range 0 127 a = false → in_range 128 255 a = true.
Proof. destruct a as [[] [] [] [] [] [] [] []]; intros Ha; try discriminate Ha; reflexivity. Qed.

Lemma continuation_plain (n : nat) (s : string) :
  continuation n s = true → all_bytes plain (first_bytes n s) = true.
Proof.
  revert s. induction n as [|n IH]; intros s Hs; [done|].
  destruct s as [|b s]; [done|]. cbn in Hs. apply andb_prop in Hs as [Hb Hs].
  cbn [first_bytes all_bytes]. rewrite (IH _ Hs), andb_true_r.
  apply plain_high. revert Hb. clear.
  destruct b as [[] [] [] [] [] [] [] []]; intros Hb; try discriminate Hb; reflexivity.
Qed.

Lemma second_range_high (lo hi : N) (n : nat) (a b : ascii) :
  utf8_second a = Some (lo, hi, n) → in_range lo hi b = true → in_range 128 191 b = true.
Proof.
  unfold utf8_second.
  repeat (destruct (in_range _ _ a); [intros [= <- <- <-]; revert b; clear;
    intros b; destruct b as [[] [] [] [] [] [] [] []]; intros Hb;
    try discriminate Hb; reflexivity|]).
  discriminate.
Qed.

Lemma utf8_tail_continuation (a : ascii) (s : string) (n : nat) :
  utf8_tail a s = Some n → continuation n s = true.
Proof.
  unfold utf8_tail. destruct (utf8_second a) as [[[lo hi] [|n']]|] eqn:Ha; try discriminate.
  destruct s as [|b s]; [discriminate|].
  destruct (in_range lo hi b) eqn:Hb; [|discriminate]. cbn [andb].
  destruct (continuation n' s) eqn:Hs; [|discriminate]. intros [= <-].
  cbn [continuation]. by rewrite (second_range_high _ _ _ _ _ Ha Hb), Hs.
Qed.

Lemma utf8_tail_plain (a : ascii) (s : string) (n : nat) :
  in_range 0 127 a = false → utf8_tail a s = Some n →
  all_bytes plain (String a (first_bytes n s)) = true.
Proof.
  intros Ha Hn. cbn [all_bytes].
  rewrite (plain_high _ (not_ascii_high _ Ha)).
  by rewrite (continuation_plain _ _ (utf8_tail_continuation _ _ _ Hn)).
Qed.

Lemma read_string_line_separator (a : ascii) (s rest : string) (n : nat) (esc : string) :
  utf8_tail a s = Some n → line_separator a s = Some esc →
  read_string None (esc +:+ rest) =
    prepend (String a (first_bytes n s)) (read_string None rest).
Proof.
  destruct s as [|b [|c s]]; try discriminate. unfold line_separator.
  destruct (in_range 226 226 a) eqn:Ha; [|discriminate].
  destruct (in_range 128 128 b) eqn:Hb; [|discriminate]. cbn [andb].
  apply in_range_eq in Ha, Hb. subst a b.
  destruct (in_range 168 168 c) eqn:Hc.
  { apply in_range_eq in Hc. subst c. intros [= <-] [= <-]. reflexivity. }
  destruct (in_range 169 169 c) eqn:Hc'; [|discriminate].
  apply in_range_eq in Hc'. subst c. intros [= <-] [= <-]. reflexivity.
Qed.

(** The reader gives back what the encoder wrote, with the bytes that are
    not part of a well-formed character replaced by U+FFFD. *)
Lemma read_string_escape (s : string) (skip : nat) (rest : string) :
  read_string None (escape_from skip s +:+ dquote +:+ rest) =
    Some (sanitize_from skip s, rest).
Proof.
  revert skip. induction s as [|a s IH]; intros skip; [done|].
  destruct skip as [|n]; cbn [escape_from sanitize_from]; [|apply IH].
  destruct (in_range 0 127 a) eqn:Ha.
  { rewrite append_assoc, (read_string_escape_byte _ _ Ha), IH. reflexivity. }
  destruct (utf8_tail a s) as [n|] eqn:Hn.
  - rewrite append_assoc.
    destruct (line_separator a s) as [esc|] eqn:Hesc.
    + rewrite (read_string_line_separator _ _ _ _ _ Hn Hesc), IH. reflexivity.
    + rewrite (read_string_plain _ _ (utf8_tail_plain _ _ _ Ha Hn)), IH. reflexivity.
  - rewrite append_assoc.
    change (read_string None ("\ufffd" +:+ escape_from 0 s +:+ dquote +:+ rest))
      with (prepend replacement (read_string None (escape_from 0 s +:+ dquote +:+ rest))).
    by rewrite IH.
Qed.

Lemma sanitize_ascii (s : string) :
  all_bytes (in_range 0 127) s = true → sanitize s = s.
Proof.
  unfold sanitize. induction s as [|a s IH]; [done|]. cbn [all_bytes sanitize_from].
  intros H. apply andb_prop in H as [Ha Hs]. rewrite Ha. by rewrite (IH Hs).
Qed.

Lemma sanitize_ascii_inv (s t : string) :
  sanitize s = t → all_bytes (in_range 0 127) t = true → s = t.
Proof.
  unfold sanitize. revert t. induction s as [|a s IH]; intros t; [done|].
  cbn [sanitize_from]. destruct (in_range 0 127 a) eqn:Ha.
  - intros <-. cbn [all_bytes]. intros H. apply andb_prop in H as [_ Hs].
    f_equal. by apply IH.
  - destruct (utf8_tail a s) as [n|].
    + intros <-. rewrite append_cons. cbn [all_bytes]. by rewrite Ha.
    + intros <-. discriminate.
Qed.

Lemma sanitize_valid_from (s : string) (skip : nat) :
  valid_from skip s = true → first_bytes skip s +:+ sanitize_from skip s = s.
Proof.
  revert skip. induction s as [|a s IH]; intros skip.
  { by destruct skip. }
  destruct skip as [|n]; cbn [valid_from sanitize_from first_bytes].
  - destruct (in_range 0 127 a).
    + intros Hs. rewrite append_nil_l. f_equal. by rewrite <- (IH 0%nat Hs) at 2.
    + destruct (utf8_tail a s) as [n|]; [|discriminate].
      intros Hs. rewrite append_nil_l, append_cons. f_equal. by apply IH.
  - intros Hs. rewrite append_cons. f_equal. by apply IH.
Qed.

Lemma sanitize_valid (s : string) : utf8_valid s = true → sanitize s = s.
Proof. intros Hs. by rewrite <- (sanitize_valid_from s 0%nat Hs) at 2. Qed.

(** *** Numbers *)

Lemma string_of_uint_bytes (d : Decimal.uint) :
  all_bytes number_byte (NilEmpty.string_of_uint d) = true.
Proof. induction d; cbn [NilEmpty.string_of_uint all_bytes]; by rewrite ?IHd. Qed.

Lemma fmt_d_bytes (n : Z) : all_bytes number_byte (fmt_d n) = true.
Proof.
  unfold fmt_d, NilZero.string_of_int, NilZero.string_of_uint.
  destruct (Z.to_int n) as [d|d]; destruct d; cbn [all_bytes];
    rewrite ?string_of_uint_bytes; reflexivity.
Qed.

Lemma to_int_nonnil (n : Z) :
  Z.to_int n ≠ Decimal.Pos Decimal.Nil ∧ Z.to_int n ≠ Decimal.Neg Decimal.Nil.
Proof.
  destruct n as [|p|p]; cbn; split; try discriminate;
    intros [= H]; by apply Unsigned.to_uint_nonnil in H.
Qed.

(** The first byte of a number is a digit or a minus sign. *)
Lemma fmt_d_head (n : Z) : ∃ c r, fmt_d n = String c r ∧ number_byte c = true.
Proof.
  pose proof (fmt_d_bytes n) as Hb. destruct (to_int_nonnil n) as [Hp Hn].
  unfold fmt_d, NilZero.string_of_int, NilZero.string_of_uint in *.
  destruct (Z.to_int n) as [d|d]; destruct d; try done;
    cbn [NilEmpty.string_of_uint all_bytes] in *; eexists _, _; (split; [reflexivity|]);
    apply andb_prop in Hb as [Hb _]; try exact Hb; reflexivity.
Qed.

Lemma ends_value_not_number (k : string) :
  ends_value k = true → span_number k = (EmptyString, k).
Proof.
  destruct k as [|c k]; [done|]. cbn [ends_value span_number].
  destruct c as [[] [] [] [] [] [] [] []]; intros H; try discriminate H; reflexivity.
Qed.

Lemma span_number_append (d k : string) :
  all_bytes number_byte d = true → ends_value k = true →
  span_number (d +:+ k) = (d, k).
Proof.
  intros Hd Hk. induction d as [|a d IH].
  - rewrite append_nil_l. by apply ends_value_not_number.
  - cbn [all_bytes] in Hd. apply andb_prop in Hd as [Ha Hd].
    rewrite append_cons. cbn [span_number]. rewrite Ha, (IH Hd). reflexivity.
Qed.

Lemma read_number_fmt_d (n : Z) (k : string) :
  ends_value k = true → read_number (fmt_d n +:+ k) = Some (n, k).
Proof.
  intros Hk. unfold read_number.
  rewrite (span_number_append _ _ (fmt_d_bytes n) Hk). cbn [fst snd].
  destruct (to_int_nonnil n) as [Hp Hn].
  unfold fmt_d at 1. rewrite (NilZero.isi _ Hp Hn), of_to.
  by rewrite String.eqb_refl.
Qed.

(** *** Documents *)

Lemma json_forall_ind (P : json → Prop) :
  P JNull → (∀ b, P (JBool b)) → (∀ n, P (JNumber n)) → (∀ s, P (JString s)) →
  (∀ items, Forall P items → P (JArray items)) →
  (∀ members, Forall (λ kv, P kv.2) members → P (JObject members)) →
  ∀ j, P j.
Proof.
  intros Hnull Hbool Hnum Hstr Harr Hobj. fix IH 1.
  intros [ | b | n | s | items | members].
  - exact Hnull.
  - apply Hbool.
  - apply Hnum.
  - apply Hstr.
  - apply Harr.
    exact ((fix all (l : list json) : Forall P l :=
              match l with
              | [] => Forall_nil_2 P
              | j :: l' => Forall_cons_2 P j l' (IH j) (all l')
              end) items).
  - apply Hobj.
    exact ((fix all (l : list (string * json)) : Forall (λ kv, P kv.2) l :=
              match l with
              | [] => Forall_nil_2 _
              | kv :: l' => Forall_cons_2 (λ kv, P kv.2) kv l' (IH kv.2) (all l')
              end) members).
Qed.

Lemma json_text_array (items : list json) :
  json_text (JArray items) = "[" +:+ items_text items +:+ "]".
Proof.
reflexivity. Qed.

Lemma json_text_object (members : list (string * json)) :
  json_text (JObject members) = "{" +:+ members_text members +:+ "}".
Proof.
reflexivity. Qed.

Lemma number_byte_tests (c : ascii) :
  number_byte c = true →
  in_range 34 34 c = false ∧ in_range 91 91 c = false ∧ in_range 123 123 c = false ∧
  in_range 110 110 c = false ∧ in_range 116 116 c = false ∧ in_range 102 102 c = false ∧
  in_range 93 93 c = false.
Proof.
  destruct c as [[] [] [] [] [] [] [] []]; intros H; try discriminate H;
    repeat split; reflexivity.
Qed.

(** No value starts with a closing bracket. *)
Lemma json_text_head (j : json) :
  ∃ c r, json_text j = String c r ∧ in_range 93 93 c = false.
Proof.
  destruct j as [ | [] | n | s | items | members].
  - by eexists _, _.
  - by eexists _, _.
  - by eexists _, _.
  - destruct (fmt_d_head n) as (c & r & Hn & Hc). exists c, r. split; [done|].
    by apply number_byte_tests.
  - by eexists _, _.
  - rewrite json_text_array. by eexists _, _.
  - rewrite json_text_object. by eexists _, _.
Qed.

Lemma items_text_head (j : json) (items : list json) (k : string) :
  after 93 (items_text (j :: items) +:+ k) = None.
Proof.
  destruct (json_text_head j) as (c & r & Hj & Hc).
  destruct items; cbn [items_text]; rewrite Hj, !append_cons; cbn [after]; by rewrite Hc.
Qed.

Lemma members_text_head (kv : string * json) (members : list (string * json)) (k : string) :
  after 125 (members_text (kv :: members) +:+ k) = None.
Proof. destruct kv as [key j]. by destruct members. Qed.

Lemma reads_back_items (items : list json) :
  Forall reads_back items → items ≠ [] →
  ∀ (fuel : nat) (k : string),
    (list_sum (map (λ j, S (json_size j)) items) ≤ fuel)%nat →
    parse_items fuel (items_text items +:+ "]" +:+ k) = Some (map received items, k).
Proof.
  induction 1 as [|j items Hj Hitems IH]; [done|]. intros _ fuel k Hfuel.
  cbn [map list_sum fold_right] in Hfuel. destruct fuel as [|fuel]; [lia|].
  destruct items as [|j' items].
  - cbn [items_text parse_items map]. rewrite Hj by (cbn in *; lia || done).
    reflexivity.
  - change (items_text (j :: j' :: items)) with
      (json_text j +:+ "," +:+ items_text (j' :: items)).
    rewrite !append_assoc. cbn [parse_items].
    rewrite Hj by (cbn in *; lia || done).
    cbn [mbind option_bind]. 
    change (after 44 ("," +:+ items_text (j' :: items) +:+ "]" +:+ k))
      with (Some (items_text (j' :: items) +:+ "]" +:+ k)).
    cbn beta iota. rewrite IH by (done || (cbn [map list_sum fold_right] in *; lia)).
    reflexivity.
Qed.

Lemma reads_back_members (members : list (string * json)) :
  Forall (λ kv, reads_back kv.2) members → members ≠ [] →
  ∀ (fuel : nat) (k : string),
    (list_sum (map (λ kv : string * json, S (json_size kv.2)) members) ≤ fuel)%nat →
    parse_members fuel (members_text members +:+ "}" +:+ k) =
      Some (map (λ kv, (sanitize kv.1, received kv.2)) members, k).
Proof.
  induction 1 as [|[key j] members Hj Hmembers IH]; [done|]. intros _ fuel k Hfuel.
  cbn [map list_sum fold_right snd] in Hfuel. destruct fuel as [|fuel]; [lia|].
  cbn [snd] in Hj.
  destruct members as [|kv members].
  - cbn [members_text]. unfold quote. rewrite !append_assoc.
    cbn [parse_members]. 
    change (after 34 (dquote +:+ ?x)) with (Some x).
    cbn [mbind option_bind]. unfold escape. rewrite read_string_escape.
    cbn [mbind option_bind].
    change (after 58 (":" +:+ ?x)) with (Some x).
    cbn [mbind option_bind]. rewrite Hj by (cbn in *; lia || done).
    reflexivity.
  - change (members_text ((key, j) :: kv :: members)) with
      (quote key +:+ ":" +:+ json_text j +:+ "," +:+ members_text (kv :: members)).
    unfold quote. rewrite !append_assoc.
    cbn [parse_members].
    change (after 34 (dquote +:+ ?x)) with (Some x).
    cbn [mbind option_bind]. unfold escape. rewrite read_string_escape.
    cbn [mbind option_bind].
    change (after 58 (":" +:+ ?x)) with (Some x).
    cbn [mbind option_bind]. rewrite Hj by (cbn in *; lia || done).
    cbn [mbind option_bind].
    change (after 44 ("," +:+ ?x)) with (Some x).
    cbn beta iota. rewrite IH by (done || (cbn [map list_sum fold_right] in *; lia)).
    reflexivity.
Qed.

Lemma reads_back_all (j : json) : reads_back j.
Proof.
  induction j as [ | b | n | s | items IH | members IH] using json_forall_ind;
    intros fuel k Hfuel Hk.
  - destruct fuel as [|fuel]; [cbn in Hfuel; lia|]. reflexivity.
  - destruct fuel as [|fuel]; [cbn in Hfuel; lia|]. by destruct b.
  - destruct fuel as [|fuel]; [cbn in Hfuel; lia|].
    cbn [json_text received].
    destruct (fmt_d_head n) as (c & r & Hn & Hc).
    destruct (number_byte_tests c Hc) as (H34 & H91 & H123 & H110 & H116 & H102 & _).
    pose proof (read_number_fmt_d n k Hk) as Hread.
    rewrite Hn, append_cons in Hread |- *.
    cbn [parse_value]. rewrite H34, H91, H123, H110, H116, H102, Hread.
    reflexivity.
  - destruct fuel as [|fuel]; [cbn in Hfuel; lia|].
    cbn [json_text received]. unfold quote. rewrite !append_assoc.
    change (dquote +:+ ?x) with (String (ascii_of_nat 34) x).
    cbn [parse_value].
    change (in_range 34 34 (ascii_of_nat 34)) with true. cbn beta iota.
    unfold escape. rewrite read_string_escape. reflexivity.
  - destruct fuel as [|fuel]; [cbn in Hfuel; lia|].
    destruct items as [|j items]; [reflexivity|].
    rewrite json_text_array, !append_assoc.
    change ("[" +:+ ?x) with (String (ascii_of_nat 91) x).
    cbn [parse_value].
    change (in_range 34 34 (ascii_of_nat 91)) with false.
    change (in_range 91 91 (ascii_of_nat 91)) with true. cbn beta iota.
    rewrite items_text_head.
    rewrite (reads_back_items (j :: items)) by (done || (cbn in Hfuel |- *; lia)).
    reflexivity.
  - destruct fuel as [|fuel]; [cbn in Hfuel; lia|].
    destruct members as [|kv members]; [reflexivity|].
    rewrite json_text_object, !append_assoc.
    change ("{" +:+ ?x) with (String (ascii_of_nat 123) x).
    cbn [parse_value].
    change (in_range 34 34 (ascii_of_nat 123)) with false.
    change (in_range 91 91 (ascii_of_nat 123)) with false.
    change (in_range 123 123 (ascii_of_nat 123)) with true. cbn beta iota.
    rewrite members_text_head.
    rewrite (reads_back_members (kv :: members)) by (done || (cbn in Hfuel |- *; lia)).
    reflexivity.
Qed.

(** The text of a document is at least as long as the document is large,
    so the length of a text is fuel enough to read it. *)
Lemma items_size_le (items : list json) :
  Forall (λ j, (json_size j ≤ String.length (json_text j))%nat) items →
  (list_sum (map (λ j, S (json_size j)) items) ≤ S (String.length (items_text items)))%nat.
Proof.
  induction 1 as [|j items Hj _ IH]; [cbn; lia|].
  destruct items as [|j' items].
  - cbn [map list_sum fold_right items_text]. lia.
  - change (items_text (j :: j' :: items)) with
      (json_text j +:+ "," +:+ items_text (j' :: items)).
    rewrite !length_append. cbn [map list_sum fold_right] in IH |- *.
    cbn [String.length]. lia.
Qed.

Lemma members_size_le (members : list (string * json)) :
  Forall (λ kv : string * json, (json_size kv.2 ≤ String.length (json_text kv.2))%nat) members →
  (list_sum (map (λ kv : string * json, S (json_size kv.2)) members)
     ≤ S (String.length (members_text members)))%nat.
Proof.
  induction 1 as [|[key j] members Hj _ IH]; [cbn; lia|]. cbn [snd] in Hj.
  destruct members as [|kv members].
  - cbn [map list_sum fold_right members_text snd]. rewrite !length_append. lia.
  - change (members_text ((key, j) :: kv :: members)) with
      (quote key +:+ ":" +:+ json_text j +:+ "," +:+ members_text (kv :: members)).
    rewrite !length_append. cbn [map list_sum fold_right snd] in IH |- *.
    cbn [String.length]. lia.
Qed.

Lemma json_size_le (j : json) : (json_size j ≤ String.length (json_text j))%nat.
Proof.
  induction j as [ | b | n | s | items IH | members IH] using json_forall_ind.
  - cbn. lia.
  - destruct b; cbn; lia.
  - destruct (fmt_d_head n) as (c & r & Hn & _). cbn [json_text json_size].
    rewrite Hn. cbn [String.length]. lia.
  - cbn [json_text json_size]. unfold quote.
    change (dquote +:+ ?x) with (String (ascii_of_nat 34) x). cbn [String.length]. lia.
  - rewrite json_text_array, !length_append. cbn [json_size String.length].
    pose proof (items_size_le items IH). lia.
  - rewrite json_text_object, !length_append. cbn [json_size String.length].
    pose proof (members_size_le members IH). lia.
Qed.

(** Reading the text of a document gives the document back, its strings
    sanitized. *)
Lemma json_parse_text (j : json) : json_parse (json_text j) = Some (received j).
Proof.
  unfold json_parse.
  pose proof (reads_back_all j (String.length (json_text j)) EmptyString
                (json_size_le j) eq_refl) as H.
  rewrite append_nil_r in H. by rewrite H.
Qed.

(** Looking a key of plain ASCII up in the members read back. *)
Lemma member_received (k : string) (members : list (string * json)) :
  all_bytes (in_range 0 127) k = true →
  member k (map (λ kv, (sanitize kv.1, received kv.2)) members) =
    received <$> member k members.
Proof.
  intros Hk. induction members as [|[k' j] members IH]; [done|].
  cbn [map member fst snd]. rewrite IH.
  destruct (bool_decide (k' = k)) eqn:Hkey.
  - apply bool_decide_eq_true in Hkey as ->. rewrite (sanitize_ascii k Hk).
    by rewrite bool_decide_eq_true_2.
  - apply bool_decide_eq_false in Hkey.
    rewrite bool_decide_eq_false_2; [done|].
    intros Heq. apply Hkey. by apply sanitize_ascii_inv.
Qed.

(** The encoder on the characters it does not copy: the HTML characters,
    a line separator (the bytes E2 80 A8), a byte that is not UTF-8; and
    what is read back for the last. *)
Example escape_samples :
  escape "<&>" = "\u003c\u0026\u003e" ∧
  escape (String (ascii_of_nat 226) (String (ascii_of_nat 128)
            (String (ascii_of_nat 168) EmptyString))) = "\u2028" ∧
  escape broken_msg = "a\ufffdb" ∧
  json_parse (json_text (JString broken_msg)) = Some (JString mended_msg).
Proof. repeat split; vm_compute; reflexivity. Qed.

(** ** The log relay *)

(** Runs the monad one step: unfolds the sequencing and the library calls
    that only read or extend the trace. *)
Ltac run_M :=
  cbv [mbind M_bind mret M_ret Client_Do log_Printf emit ask
       time_Now_UnixNano GetLinkingMetadata];
  cbn [fst snd].

Section Relay.

Context (env : Env).

Lemma send_Do l c datas tr body :
  json_Marshal [{| Logs := datas |}] = Ok body →
  c ≠ NilContext →
  send env l c datas tr =
    match round_trip env tr DefaultClient (relay_request l c body) with
    | Err err =>
        (Some (Errorf "Do: " err), tr ++ [EvDo DefaultClient (relay_request l c body)])
    | Ok resp =>
        (None, tr ++ [EvDo DefaultClient (relay_request l c body);
                      EvPrintf ("post log status=" +:+ fmt_d (StatusCode resp))])
    end.
Proof.
  intros H Hc. unfold send. rewrite H.
  destruct c; [done| |]; cbn [http_NewRequestWithContext]; run_M;
    unfold Request_Header_Set, relay_request; cbn [req_Method req_URL req_Header req_Body req_ctx];
    (destruct (round_trip _ _ _ _); [by rewrite <- app_assoc|done]).
Qed.

Lemma buildRecord_eq txn msg tr :
  buildRecord env txn msg tr =
    (<[KeyMessage := VString msg]>
       (<[KeyTimestamp := VUint64 (uint64 (UnixNano env tr) / 1000000)]>
          (AddLinkingMetadata ∅ (linking env tr txn))), tr).
Proof. reflexivity. Qed.

Lemma buildRecord_lookup txn msg tr k :
  (buildRecord env txn msg tr).1 !! k =
    if decide (k = KeyMessage) then Some (VString msg)
    else if decide (k = KeyTimestamp) then
      Some (VUint64 (uint64 (UnixNano env tr) / 1000000))
    else VString <$> linking env tr txn !! k.
Proof.
  rewrite buildRecord_eq. cbn [fst]. unfold AddLinkingMetadata.
  destruct (decide (k = KeyMessage)) as [->|Hm].
  { by rewrite lookup_insert_eq. }
  rewrite lookup_insert_ne by done.
  destruct (decide (k = KeyTimestamp)) as [->|Ht].
  { by rewrite lookup_insert_eq. }
  rewrite lookup_insert_ne by done.
  by rewrite (right_id_L ∅ (∪)), lookup_fmap.
Qed.

(** The record of [log] always serializes: its values are strings and one
    unsigned integer. *)
Lemma buildRecord_Marshal txn msg tr :
  ∃ members,
    json_Marshal [{| Logs := [(buildRecord env txn msg tr).1] |}] =
      Ok (json_text (JArray [JObject [("logs", JArray [JObject members])]])) ∧
    ∀ k, member k members =
         (buildRecord env txn msg tr).1 !! k ≫= (λ v, result_value (value_json v)).
Proof.
  destruct (logBody_json_Ok (buildRecord env txn msg tr).1) as [j Hj].
  { intros (k & type & Hk). rewrite buildRecord_lookup in Hk.
    repeat case_decide; try done. by destruct (linking env tr txn !! k). }
  destruct (logBody_json_members _ _ Hj) as (members & -> & Hmem).
  exists members. split; [|done].
  unfold json_Marshal, batch_json, detailedLog_json, logs_json.
  cbn [Logs mapM]. rewrite Hj. reflexivity.
Qed.

(** What [log] does when a transaction is active: it serializes the
    record, posts it once and prints one line, the status of the response
    or the transport error. *)
Lemma log_trace l c txn msg tr :
  FromContext c = Some txn →
  ∃ body line,
    json_Marshal [{| Logs := [(buildRecord env txn msg tr).1] |}] = Ok body ∧
    log env l c msg tr =
      (tt, tr ++ [EvDo DefaultClient (relay_request l c body); EvPrintf line]).
Proof.
  intros Hc. destruct (buildRecord_Marshal txn msg tr) as (members & Hbody & _).
  eexists. unfold log. rewrite Hc. cbv [mbind M_bind]. cbv zeta.
  replace (buildRecord env txn msg tr).2 with tr by done.
  rewrite (send_Do l c _ _ _ Hbody) by (by destruct c).
  destruct (round_trip _ _ _ _) as [resp|err]; cbn [fst snd].
  - eexists. split; [done|]. reflexivity.
  - eexists. split; [done|]. run_M. by rewrite <- app_assoc.
Qed.

End Relay.

(** ** The properties of the specification: the relay *)

(** C1.  When the context carries no active transaction, [log] returns at
    once and leaves the trace as it was: no record is built, [send] is not
    called, no request is handed to an HTTP client. *)
Theorem log_without_transaction (env : Env) (l : contextLogger) (c : Context)
    (msg : string) (tr : list Event) :
  FromContext c = None →
  log env l c msg tr = (tt, tr) ∧ outbound (log env l c msg tr).2 = outbound tr.
Proof. intros Hc. unfold log. by rewrite Hc. Qed.

Lemma log_without_transaction_witness :
  FromContext Background = None ∧
  log sample_env sample_logger Background "hello" [] = (tt, []) ∧
  outbound (log sample_env sample_logger Background "hello" []).2 = outbound [].
Proof.
  split; [reflexivity|].
  apply (log_without_transaction sample_env sample_logger Background "hello" []).
  reflexivity.
Defined.

(** What the ingestion endpoint reads in the body [log] posts: the message
    with every byte that is not part of a well-formed character replaced
    by U+FFFD. *)
Lemma log_body_read (env : Env) (l : contextLogger) (c : Context)
    (txn : Transaction) (msg : string) (tr : list Event) :
  FromContext c = Some txn →
  ∃ req line members,
    log env l c msg tr = (tt, tr ++ [EvDo DefaultClient req; EvPrintf line]) ∧
    outbound (log env l c msg tr).2 = outbound tr ++ [(DefaultClient, req)] ∧
    req_Method req = MethodPost ∧
    req_URL req = log_api_url ∧
    json_parse (req_Body req) =
      Some (JArray [JObject [("logs", JArray [JObject members])]]) ∧
    member KeyTimestamp members =
      Some (JNumber (uint64 (UnixNano env tr) / 1000000)) ∧
    member KeyMessage members = Some (JString (sanitize msg)).
Proof.
  intros Hc.
  destruct (log_trace env l c txn msg tr Hc) as (body & line & Hbody & Hlog).
  destruct (buildRecord_Marshal env txn msg tr) as (members & Hbody' & Hmem).
  rewrite Hbody' in Hbody. injection Hbody as <-.
  exists (relay_request l c (json_text (JArray [JObject [("logs", JArray [JObject members])]]))),
    line, (map (λ kv, (sanitize kv.1, received kv.2)) members).
  split; [done|]. split.
  { rewrite Hlog. cbn [snd]. unfold outbound. by rewrite omap_app. }
  do 2 (split; [done|]).
  split.
  { cbn [relay_request req_Body]. by rewrite json_parse_text. }
  rewrite !member_received by reflexivity.
  rewrite !Hmem, !buildRecord_lookup. by repeat case_decide.
Qed.

(** C2.  When the context carries an active transaction, [log] adds to the
    trace exactly one call of an HTTP client, a POST to the ingestion
    endpoint, followed by one local log line.  The body of the request,
    read as JSON, is an array with one element, an object whose only key
    ["logs"] holds an array with one record; the record has the timestamp
    field, a number of milliseconds, and the message field.  When the
    message given to [log] is valid UTF-8, the message field is that
    string. *)
Theorem log_with_transaction_posts_once (env : Env) (l : contextLogger)
    (c : Context) (txn : Transaction) (msg : string) (tr : list Event) :
  FromContext c = Some txn →
  utf8_valid msg = true →
  ∃ req line members,
    log env l c msg tr = (tt, tr ++ [EvDo DefaultClient req; EvPrintf line]) ∧
    outbound (log env l c msg tr).2 = outbound tr ++ [(DefaultClient, req)] ∧
    req_Method req = MethodPost ∧
    req_URL req = log_api_url ∧
    json_parse (req_Body req) =
      Some (JArray [JObject [("logs", JArray [JObject members])]]) ∧
    member KeyTimestamp members =
      Some (JNumber (uint64 (UnixNano env tr) / 1000000)) ∧
    member KeyMessage members = Some (JString msg).
Proof.
  intros Hc Hmsg.
  destruct (log_body_read env l c txn msg tr Hc) as (req & line & members & H).
  exists req, line, members. by rewrite (sanitize_valid msg Hmsg) in H.
Qed.

Lemma log_with_transaction_posts_once_witness :
  FromContext sample_ctx = Some sample_txn ∧
  utf8_valid "hello" = true ∧
  ∃ req line members,
    log sample_env sample_logger sample_ctx "hello" [] =
      (tt, [] ++ [EvDo DefaultClient req; EvPrintf line]) ∧
    outbound (log sample_env sample_logger
                sample_ctx "hello" []).2 =
      outbound [] ++ [(DefaultClient, req)] ∧
    req_Method req = MethodPost ∧
    req_URL req = log_api_url ∧
    json_parse (req_Body req) =
      Some (JArray [JObject [("logs", JArray [JObject members])]]) ∧
    member KeyTimestamp members =
      Some (JNumber (uint64 (UnixNano sample_env []) / 1000000)) ∧
    member KeyMessage members = Some (JString "hello").
Proof.
  split; [reflexivity|]. split; [reflexivity|].
  apply (log_with_transaction_posts_once sample_env sample_logger
           sample_ctx sample_txn "hello" []); reflexivity.
Defined.

(** C2 as stated, with the message field equal to the given string for
    every message, fails for a message that is not valid UTF-8.  For the
    bytes 61 FF 62 the encoder writes the escape of U+FFFD in place of the
    byte FF, and the record read from the body holds the bytes
    61 EF BF BD 62. *)
Lemma log_message_not_utf8 :
  FromContext sample_ctx = Some sample_txn ∧
  utf8_valid broken_msg = false ∧
  ∃ req line members,
    log sample_env sample_logger sample_ctx broken_msg [] =
      (tt, [EvDo DefaultClient req; EvPrintf line]) ∧
    req_Body req =
      json_text
        (JArray [JObject [("logs", JArray [JObject
           [("message", JString broken_msg);
            ("span.id", JString "00f067aa");
            ("timestamp", JNumber 1700000000123);
            ("trace.id", JString "4bf92f35")]])]]) ∧
    json_text (JString broken_msg) = dquote +:+ "a\ufffdb" +:+ dquote ∧
    json_parse (req_Body req) =
      Some (JArray [JObject [("logs", JArray [JObject members])]]) ∧
    member KeyMessage members = Some (JString mended_msg) ∧
    member KeyMessage members ≠ Some (JString broken_msg).
Proof.
  split; [reflexivity|]. split; [reflexivity|].
  eexists _, _, _.
  split; [vm_compute; reflexivity|].
  split; [vm_compute; reflexivity|].
  split; [vm_compute; reflexivity|].
  split; [vm_compute; reflexivity|].
  split; [vm_compute; reflexivity|].
  vm_compute. discriminate.
Qed.

(** The run of C2 on the sample world, written out: the ingestion endpoint
    answers 503, which [log] prints and otherwise ignores. *)
Example log_sample_run :
  log sample_env sample_logger sample_ctx "hello" [] =
    (tt,
     [EvDo DefaultClient
        (relay_request sample_logger sample_ctx
           (json_text
              (JArray [JObject [("logs", JArray [JObject
                 [("message", JString "hello");
                  ("span.id", JString "00f067aa");
                  ("timestamp", JNumber 1700000000123);
                  ("trace.id", JString "4bf92f35")]])]])));
      EvPrintf "post log status=503"]).
Proof. vm_compute. reflexivity. Qed.

(** C5.  When the batch serializes, the request is built and the ingestion
    endpoint answers, with whatever status code, [send] prints the code
    and returns no error.  [send] returns an error in three cases only:
    serialization failed, the request could not be built, or the call of
    the client failed. *)
Theorem send_ignores_status (env : Env) (l : contextLogger) (c : Context)
    (datas : list logBody) (tr : list Event) :
  (∀ body req resp,
     json_Marshal [{| Logs := datas |}] = Ok body →
     http_NewRequestWithContext c MethodPost log_api_url body = Ok req →
     round_trip env tr DefaultClient
       (Request_Header_Set "Content-Type" "application/json"
          (Request_Header_Set "X-License-Key" (apiKey l) req)) = Ok resp →
     send env l c datas tr =
       (None,
        tr ++ [EvDo DefaultClient
                 (Request_Header_Set "Content-Type" "application/json"
                    (Request_Header_Set "X-License-Key" (apiKey l) req));
               EvPrintf ("post log status=" +:+ fmt_d (StatusCode resp))])) ∧
  (∀ err,
     (send env l c datas tr).1 = Some err →
     (∃ e, json_Marshal [{| Logs := datas |}] = Err e ∧
           err = Errorf "json.Marshal: " e) ∨
     (∃ body e, json_Marshal [{| Logs := datas |}] = Ok body ∧
           http_NewRequestWithContext c MethodPost log_api_url body = Err e ∧
           err = Errorf "NewRequest: " e) ∨
     (∃ req e, (send env l c datas tr).2 = tr ++ [EvDo DefaultClient req] ∧
           round_trip env tr DefaultClient req = Err e ∧
           err = Errorf "Do: " e)).
Proof.
  split.
  - intros body req resp Hbody Hreq Hresp. unfold send. rewrite Hbody, Hreq.
    run_M. rewrite Hresp. cbn [fst snd]. by rewrite <- app_assoc.
  - intros err. unfold send.
    destruct (json_Marshal _) as [body|e] eqn:Hbody.
    2: { intros [= <-]. left. by exists e. }
    destruct (http_NewRequestWithContext _ _ _ _) as [req|e] eqn:Hreq.
    2: { intros [= <-]. right. left. by exists body, e. }
    run_M. destruct (round_trip _ _ _ _) as [resp|e] eqn:Hresp; cbn [fst snd].
    { done. }
    intros [= <-]. right. right. by eexists _, e.
Qed.

Lemma send_ignores_status_witness :
  (json_Marshal [{| Logs := sample_datas |}] = Ok sample_body ∧
   http_NewRequestWithContext sample_ctx MethodPost log_api_url sample_body =
     Ok sample_post ∧
   round_trip sample_env [] DefaultClient sample_sent = Ok {| StatusCode := 503 |} ∧
   send sample_env sample_logger sample_ctx sample_datas [] =
     (None, [] ++ [EvDo DefaultClient sample_sent;
                   EvPrintf ("post log status=" +:+ fmt_d 503)])) ∧
  ((send offline_env sample_logger sample_ctx sample_datas []).1 =
     Some (Errorf "Do: " (ErrorString "dial tcp: connection refused")) ∧
   ((∃ e, json_Marshal [{| Logs := sample_datas |}] = Err e ∧
          Errorf "Do: " (ErrorString "dial tcp: connection refused") =
            Errorf "json.Marshal: " e) ∨
    (∃ body e, json_Marshal [{| Logs := sample_datas |}] = Ok body ∧
          http_NewRequestWithContext sample_ctx MethodPost log_api_url body = Err e ∧
          Errorf "Do: " (ErrorString "dial tcp: connection refused") =
            Errorf "NewRequest: " e) ∨
    (∃ req e, (send offline_env sample_logger sample_ctx sample_datas []).2 =
                [] ++ [EvDo DefaultClient req] ∧
          round_trip offline_env [] DefaultClient req = Err e ∧
          Errorf "Do: " (ErrorString "dial tcp: connection refused") =
            Errorf "Do: " e))).
Proof.
  assert (Hbody : json_Marshal [{| Logs := sample_datas |}] = Ok sample_body)
    by (vm_compute; reflexivity).
  assert (Hreq : http_NewRequestWithContext sample_ctx MethodPost log_api_url sample_body =
                 Ok sample_post) by reflexivity.
  assert (Hresp : round_trip sample_env [] DefaultClient sample_sent =
                  Ok {| StatusCode := 503 |}) by reflexivity.
  assert (Herr : (send offline_env sample_logger sample_ctx sample_datas []).1 =
                 Some (Errorf "Do: " (ErrorString "dial tcp: connection refused")))
    by (vm_compute; reflexivity).
  split.
  - do 3 (split; [assumption|]).
    exact (proj1 (send_ignores_status sample_env sample_logger sample_ctx sample_datas [])
             sample_body sample_post {| StatusCode := 503 |} Hbody Hreq Hresp).
  - split; [assumption|].
    exact (proj2 (send_ignores_status offline_env sample_logger sample_ctx sample_datas [])
             _ Herr).
Defined.

(** A record with a value the encoder refuses: [send] returns the
    serialization error and calls no client. *)
Example send_unsupported_value :
  send sample_env sample_logger Background [{[ "callback" := VUnsupported "func()" ]}] [] =
    (Some (ErrorString "json.Marshal: json: unsupported type: func()"), []).
Proof. vm_compute. reflexivity. Qed.

(** A nil context: [send] returns the error of the request constructor and
    calls no client. *)
Example send_nil_context :
  send sample_env sample_logger NilContext [] [] =
    (Some (ErrorString "NewRequest: net/http: nil Context"), []).
Proof. vm_compute. reflexivity. Qed.

(** C6, for a clock that is not before the epoch.  When [log] is called
    with an active transaction and the nanosecond clock reading is not
    negative, the timestamp field of the record [log] builds and sends is
    the reading divided by 1,000,000 with floor division, the epoch time
    in whole milliseconds, and the message field is the string given to
    [log]. *)
Theorem log_timestamp (env : Env) (l : contextLogger) (c : Context)
    (txn : Transaction) (msg : string) (tr : list Event) :
  FromContext c = Some txn →
  is_int64 (UnixNano env tr) →
  0 <= UnixNano env tr →
  ∃ data body line,
    buildRecord env txn msg tr = (data, tr) ∧
    json_Marshal [{| Logs := [data] |}] = Ok body ∧
    log env l c msg tr =
      (tt, tr ++ [EvDo DefaultClient (relay_request l c body); EvPrintf line]) ∧
    data !! KeyTimestamp = Some (VUint64 (UnixNano env tr / 1000000)) ∧
    data !! KeyMessage = Some (VString msg).
Proof.
  intros Hc Hnow Hpos.
  destruct (log_trace env l c txn msg tr Hc) as (body & line & Hbody & Hlog).
  exists (buildRecord env txn msg tr).1, body, line.
  split; [done|]. do 2 (split; [done|]).
  rewrite !buildRecord_lookup. repeat case_decide; try done.
  split; [|done].
  unfold uint64. rewrite Z.mod_small; [done|].
  unfold is_int64 in Hnow. lia.
Qed.

Lemma log_timestamp_witness :
  FromContext sample_ctx = Some sample_txn ∧
  is_int64 (UnixNano sample_env []) ∧
  0 <= UnixNano sample_env [] ∧
  ∃ data body line,
    buildRecord sample_env sample_txn "hello" [] = (data, []) ∧
    json_Marshal [{| Logs := [data] |}] = Ok body ∧
    log sample_env sample_logger sample_ctx "hello" [] =
      (tt, [] ++ [EvDo DefaultClient (relay_request sample_logger sample_ctx body);
                  EvPrintf line]) ∧
    data !! KeyTimestamp = Some (VUint64 (UnixNano sample_env [] / 1000000)) ∧
    data !! KeyMessage = Some (VString "hello").
Proof.
  assert (Hnow : is_int64 (UnixNano sample_env [])) by (unfold is_int64; simpl; lia).
  assert (Hpos : 0 <= UnixNano sample_env []) by (simpl; lia).
  split; [reflexivity|]. split; [exact Hnow|]. split; [exact Hpos|].
  exact (log_timestamp sample_env sample_logger sample_ctx sample_txn "hello" []
           eq_refl Hnow Hpos).
Defined.

(** The timestamp of the sample world: 2023-11-14T22:13:20.123Z. *)
Example log_timestamp_sample :
  (buildRecord sample_env sample_txn "hello" []).1 !! KeyTimestamp =
    Some (VUint64 1700000000123).
Proof. vm_compute. reflexivity. Qed.

(** C6 as stated fails when the clock reads a time before the epoch.  One
    nanosecond before it, [now.UnixNano()] is -1; the conversion to
    [uint64] gives 18446744073709551615, and the timestamp field is
    18446744073709, while the epoch time divided by 1,000,000 with floor
    division is -1. *)
Lemma log_timestamp_before_epoch :
  is_int64 (UnixNano early_env []) ∧
  UnixNano early_env [] / 1000000 = -1 ∧
  (buildRecord early_env sample_txn "hello" []).1 !! KeyTimestamp =
    Some (VUint64 18446744073709) ∧
  (buildRecord early_env sample_txn "hello" []).1 !! KeyTimestamp ≠
    Some (VUint64 (UnixNano early_env [] / 1000000)) ∧
  outbound (log early_env sample_logger
              sample_ctx "hello" []).2 =
    [(DefaultClient,
      relay_request sample_logger sample_ctx
        (json_text
           (JArray [JObject [("logs", JArray [JObject
              [("message", JString "hello");
               ("span.id", JString "00f067aa");
               ("timestamp", JNumber 18446744073709);
               ("trace.id", JString "4bf92f35")]])]])))].
Proof.
  split; [unfold is_int64; simpl; lia|].
  split; [reflexivity|].
  split; [vm_compute; reflexivity|].
  split; [vm_compute; discriminate|].
  vm_compute; reflexivity.
Qed.

(** C10.  The timestamp and the message are written into the record after
    the linking metadata has been copied.  Whatever pairs the transaction
    supplies, also under the keys of the timestamp and of the message, the
    record [log] sends maps the message key to the string given to [log]
    and the timestamp key to the millisecond timestamp computed from the
    clock; every other key holds the string of the linking metadata. *)
Theorem log_overwrites_linking_metadata (env : Env) (l : contextLogger)
    (c : Context) (txn : Transaction) (msg : string) (tr : list Event) :
  FromContext c = Some txn →
  ∃ data body line,
    buildRecord env txn msg tr = (data, tr) ∧
    json_Marshal [{| Logs := [data] |}] = Ok body ∧
    log env l c msg tr =
      (tt, tr ++ [EvDo DefaultClient (relay_request l c body); EvPrintf line]) ∧
    data = <[KeyMessage := VString msg]>
             (<[KeyTimestamp := VUint64 (uint64 (UnixNano env tr) / uint64 (1000 * 1000))]>
                (VString <$> linking env tr txn)) ∧
    data !! KeyMessage = Some (VString msg) ∧
    data !! KeyTimestamp =
      Some (VUint64 (uint64 (UnixNano env tr) / uint64 (1000 * 1000))) ∧
    ∀ k, data !! k =
           if decide (k = KeyMessage) then Some (VString msg)
           else if decide (k = KeyTimestamp) then
             Some (VUint64 (uint64 (UnixNano env tr) / uint64 (1000 * 1000)))
           else VString <$> linking env tr txn !! k.
Proof.
  intros Hc.
  destruct (log_trace env l c txn msg tr Hc) as (body & line & Hbody & Hlog).
  exists (buildRecord env txn msg tr).1, body, line.
  split; [done|]. do 2 (split; [done|]).
  split.
  { rewrite buildRecord_eq. cbn [fst]. unfold AddLinkingMetadata.
    by rewrite (right_id_L ∅ (∪)). }
  split; [by rewrite buildRecord_lookup|].
  split; [by rewrite buildRecord_lookup|].
  intros k. by rewrite buildRecord_lookup.
Qed.

Lemma log_overwrites_linking_metadata_witness :
  FromContext sample_ctx = Some sample_txn ∧
  ∃ data body line,
    buildRecord clashing_env sample_txn "hello" [] = (data, []) ∧
    json_Marshal [{| Logs := [data] |}] = Ok body ∧
    log clashing_env sample_logger sample_ctx "hello" [] =
      (tt, [] ++ [EvDo DefaultClient (relay_request sample_logger sample_ctx body);
                  EvPrintf line]) ∧
    data = <[KeyMessage := VString "hello"]>
             (<[KeyTimestamp :=
                  VUint64 (uint64 (UnixNano clashing_env []) / uint64 (1000 * 1000))]>
                (VString <$> linking clashing_env [] sample_txn)) ∧
    data !! KeyMessage = Some (VString "hello") ∧
    data !! KeyTimestamp =
      Some (VUint64 (uint64 (UnixNano clashing_env []) / uint64 (1000 * 1000))) ∧
    ∀ k, data !! k =
           if decide (k = KeyMessage) then Some (VString "hello")
           else if decide (k = KeyTimestamp) then
             Some (VUint64 (uint64 (UnixNano clashing_env []) / uint64 (1000 * 1000)))
           else VString <$> linking clashing_env [] sample_txn !! k.
Proof.
  split; [reflexivity|].
  exact (log_overwrites_linking_metadata clashing_env sample_logger sample_ctx
           sample_txn "hello" [] eq_refl).
Defined.

(** The run of C10 on a transaction whose linking metadata has entries
    under both keys: neither entry reaches the ingestion endpoint. *)
Example log_clashing_run :
  log clashing_env sample_logger sample_ctx "hello" [] =
    (tt,
     [EvDo DefaultClient
        (relay_request sample_logger sample_ctx
           (json_text
              (JArray [JObject [("logs", JArray [JObject
                 [("message", JString "hello");
                  ("timestamp", JNumber 1700000000123);
                  ("trace.id", JString "4bf92f35")]])]])));
      EvPrintf "post log status=503"]).
Proof. vm_compute. reflexivity. Qed.

(** ** The properties of the specification: the routes *)

Lemma WriteHeader_unwritten (code : Z) (h : gmap string string) (body : string)
    (tr : list Event) :
  WriteHeader code {| rw_Header := h; rw_Code := None; rw_Body := body |} tr =
    ({| rw_Header := h; rw_Code := Some code; rw_Body := body |},
     tr ++ [EvWriteHeader code h]).
Proof. reflexivity. Qed.

Lemma Write_unwritten (data : string) (h : gmap string string) (body : string)
    (tr : list Event) :
  Write data {| rw_Header := h; rw_Code := None; rw_Body := body |} tr =
    ({| rw_Header := h; rw_Code := Some StatusOK; rw_Body := body +:+ data |},
     tr ++ [EvWriteHeader StatusOK h; EvWrite data]).
Proof. unfold Write. run_M. rewrite WriteHeader_unwritten. cbn. by rewrite <- app_assoc. Qed.

Lemma Write_written (data : string) (h : gmap string string) (code : Z) (body : string)
    (tr : list Event) :
  Write data {| rw_Header := h; rw_Code := Some code; rw_Body := body |} tr =
    ({| rw_Header := h; rw_Code := Some code; rw_Body := body +:+ data |},
     tr ++ [EvWrite data]).
Proof. reflexivity. Qed.

Lemma http_Error_unwritten (h : gmap string string) (msg : string) (code : Z)
    (tr : list Event) :
  http_Error (unwritten h) msg code tr =
    ({| rw_Header := error_header h; rw_Code := Some code; rw_Body := msg +:+ newline |},
     tr ++ [EvWriteHeader code (error_header h); EvWrite (msg +:+ newline)]).
Proof.
  unfold http_Error, fmt_Fprintln, unwritten, Header_Set, Header_Del.
  cbn [rw_Header rw_Code rw_Body]. run_M. rewrite WriteHeader_unwritten.
  cbn [fst snd]. rewrite Write_written. fold (error_header h).
  by rewrite <- app_assoc.
Qed.

Lemma fetch_request_built (r : Request) :
  http_NewRequestWithContext (Request_Context r) MethodGet fetch_url EmptyString =
    Ok (fetch_request r).
Proof.
  unfold fetch_request, Request_Context. by destruct (req_ctx r).
Qed.

(** The text of the document [{"Status": S}]. *)
Lemma status_json_text (status : Z) :
  json_text (status_json status) =
    "{" +:+ dquote +:+ "Status" +:+ dquote +:+ ":" +:+ fmt_d status +:+ "}".
Proof. reflexivity. Qed.

(** C9.  The handler of [GET /], given a writer to which nothing has been
    written, sends status 200 and the body [OK] followed by a newline,
    three bytes; the two writes of the response are all it adds to the
    trace, so it calls neither the relay nor an HTTP client. *)
Theorem root_responds_OK (h params : gmap string string)
    (r : Request) (tr : list Event) :
  handleRoot (unwritten h) r params tr =
    ((Returned,
      {| rw_Header := h; rw_Code := Some 200; rw_Body := "OK" +:+ newline |}),
     tr ++ [EvWriteHeader 200 h; EvWrite ("OK" +:+ newline)]) ∧
  String.length ("OK" +:+ newline) = 3%nat ∧
  outbound (handleRoot (unwritten h) r params tr).2 = outbound tr.
Proof.
  assert (Hrun : handleRoot (unwritten h) r params tr =
    ((Returned,
      {| rw_Header := h; rw_Code := Some 200; rw_Body := "OK" +:+ newline |}),
     tr ++ [EvWriteHeader 200 h; EvWrite ("OK" +:+ newline)])).
  { unfold handleRoot, fmt_Fprintln, unwritten. run_M. by rewrite Write_unwritten. }
  split; [exact Hrun|]. split; [done|].
  rewrite Hrun. cbn [snd]. unfold outbound. rewrite omap_app.
  cbn [omap list_omap]. by rewrite app_nil_r.
Qed.

(** C3.  When the fetch is answered with status [S], the handler of
    [GET /fetch] calls the relay once, with the message
    [done fetch: status=S] and the context of the request, and then
    responds: status 200, content type [application/json], and as body
    the text of [{"Status": S}] followed by a newline. *)
Theorem fetch_success (env : Env) (cl : contextLogger) (h params : gmap string string)
    (r : Request) (tr : list Event) (resp : Response) :
  round_trip env tr httpClient (fetch_request r) = Ok resp →
  let status := StatusCode resp in
  let header := <["Content-Type" := "application/json"]> h in
  let body := json_text (status_json status) +:+ newline in
  let relayed :=
    log env cl (Request_Context r) ("done fetch: status=" +:+ fmt_d status)
      (tr ++ [EvDo httpClient (fetch_request r)]) in
  handleFetch env cl (unwritten h) r params tr =
    ((Returned, {| rw_Header := header; rw_Code := Some 200; rw_Body := body |}),
     relayed.2 ++ [EvWriteHeader 200 header; EvWrite body]) ∧
  json_text (status_json status) =
    "{" +:+ dquote +:+ "Status" +:+ dquote +:+ ":" +:+ fmt_d status +:+ "}".
Proof.
  intros Hresp status header body relayed. split; [|reflexivity].
  unfold handleFetch. rewrite fetch_request_built.
  cbv [mbind M_bind Client_Do]. cbv zeta. cbn [fst snd]. rewrite Hresp.
  fold status. fold relayed.
  unfold Encode, Header_Set, unwritten. cbn [rw_Header rw_Code rw_Body].
  run_M. by rewrite Write_unwritten.
Qed.

Lemma fetch_success_witness :
  round_trip sample_env [] httpClient (fetch_request (sample_request "/fetch")) =
    Ok {| StatusCode := 200 |} ∧
  handleFetch sample_env sample_logger (unwritten ∅) (sample_request "/fetch") ∅ [] =
    ((Returned,
      {| rw_Header := <["Content-Type" := "application/json"]> ∅;
         rw_Code := Some 200;
         rw_Body := json_text (status_json 200) +:+ newline |}),
     (log sample_env sample_logger (Request_Context (sample_request "/fetch"))
        ("done fetch: status=" +:+ fmt_d 200)
        ([] ++ [EvDo httpClient (fetch_request (sample_request "/fetch"))])).2 ++
     [EvWriteHeader 200 (<["Content-Type" := "application/json"]> ∅);
      EvWrite (json_text (status_json 200) +:+ newline)]) ∧
  json_text (status_json 200) =
    "{" +:+ dquote +:+ "Status" +:+ dquote +:+ ":" +:+ fmt_d 200 +:+ "}".
Proof.
  split; [reflexivity|].
  exact (fetch_success sample_env sample_logger ∅ ∅ (sample_request "/fetch") []
           {| StatusCode := 200 |} eq_refl).
Defined.

(** C4.  When the outbound request cannot be built, or the call of the
    client fails, the handler of [GET /fetch] responds with status 500 and
    a plain-text body, the diagnostic followed by a newline, and returns
    without calling the relay: nothing is handed to the client of the
    relay.  (The request constructor cannot fail here, [r.Context()] is
    never nil; see [fetch_request_built].) *)
Theorem fetch_failure (env : Env) (cl : contextLogger) (h params : gmap string string)
    (r : Request) (tr : list Event) (err : error) :
  http_NewRequestWithContext (Request_Context r) MethodGet fetch_url EmptyString = Err err ∨
  round_trip env tr httpClient (fetch_request r) = Err err →
  ∃ msg evs,
    handleFetch env cl (unwritten h) r params tr =
      ((Returned,
        {| rw_Header := error_header h; rw_Code := Some 500;
           rw_Body := msg +:+ newline |}),
       tr ++ evs ++ [EvWriteHeader 500 (error_header h); EvWrite (msg +:+ newline)]) ∧
    (evs = [] ∧ msg = "cannot build request: " +:+ Error err ∨
     evs = [EvDo httpClient (fetch_request r)] ∧
       msg = "failed to send request: " +:+ Error err) ∧
    error_header h !! "Content-Type" = Some "text/plain; charset=utf-8" ∧
    relay_posts (handleFetch env cl (unwritten h) r params tr).2 = relay_posts tr.
Proof.
  intros [Hreq|Hresp].
  { rewrite fetch_request_built in Hreq. discriminate. }
  exists ("failed to send request: " +:+ Error err), [EvDo httpClient (fetch_request r)].
  assert (Hrun : handleFetch env cl (unwritten h) r params tr =
    ((Returned,
      {| rw_Header := error_header h; rw_Code := Some 500;
         rw_Body := ("failed to send request: " +:+ Error err) +:+ newline |}),
     tr ++ [EvDo httpClient (fetch_request r)] ++
       [EvWriteHeader 500 (error_header h);
        EvWrite (("failed to send request: " +:+ Error err) +:+ newline)])).
  { unfold handleFetch. rewrite fetch_request_built.
    cbv [mbind M_bind Client_Do]. cbv zeta. cbn [fst snd]. rewrite Hresp.
    run_M. rewrite http_Error_unwritten. cbn [fst snd].
    by rewrite <- !app_assoc. }
  split; [exact Hrun|]. split; [by right|]. split.
  { unfold error_header. rewrite lookup_insert_ne by done. by rewrite lookup_insert_eq. }
  rewrite Hrun. cbn [snd]. unfold relay_posts. rewrite !omap_app.
  cbn [omap list_omap]. by rewrite app_nil_r.
Qed.

Lemma fetch_failure_witness :
  (http_NewRequestWithContext (Request_Context (sample_request "/fetch")) MethodGet
     fetch_url EmptyString = Err (ErrorString "dial tcp: connection refused") ∨
   round_trip offline_env [] httpClient (fetch_request (sample_request "/fetch")) =
     Err (ErrorString "dial tcp: connection refused")) ∧
  ∃ msg evs,
    handleFetch offline_env sample_logger (unwritten ∅) (sample_request "/fetch") ∅ [] =
      ((Returned,
        {| rw_Header := error_header ∅; rw_Code := Some 500;
           rw_Body := msg +:+ newline |}),
       [] ++ evs ++ [EvWriteHeader 500 (error_header ∅); EvWrite (msg +:+ newline)]) ∧
    (evs = [] ∧
       msg = "cannot build request: " +:+
             Error (ErrorString "dial tcp: connection refused") ∨
     evs = [EvDo httpClient (fetch_request (sample_request "/fetch"))] ∧
       msg = "failed to send request: " +:+
             Error (ErrorString "dial tcp: connection refused")) ∧
    error_header ∅ !! "Content-Type" = Some "text/plain; charset=utf-8" ∧
    relay_posts
      (handleFetch offline_env sample_logger (unwritten ∅) (sample_request "/fetch") ∅ []).2 =
    relay_posts [].
Proof.
  assert (H : round_trip offline_env [] httpClient (fetch_request (sample_request "/fetch")) =
              Err (ErrorString "dial tcp: connection refused")) by reflexivity.
  split; [right; exact H|].
  exact (fetch_failure offline_env sample_logger ∅ ∅ (sample_request "/fetch") []
           (ErrorString "dial tcp: connection refused") (or_intror H)).
Defined.

(** ** The properties of the specification: the middleware and start-up *)

(** C7.  For every request and every wrapped handler, the middleware
    starts a transaction named after the method and the path of the
    request, runs the handler on the request with the transaction in its
    context and on a trace in which the transaction has been started, and
    ends the transaction after the handler, whatever its outcome: the
    outcome, a return or a panic, goes on to the caller, and the end of
    the transaction is the last event of the trace. *)
Theorem middleware_ends_transaction (app : Application) (next : Handler)
    (w : ResponseWriter) (r : Request) (tr : list Event) :
  let txn := request_txn r tr in
  let r' := RequestWithTransactionContext r txn in
  let tr1 := tr ++ [EvStartTransaction txn; EvSetWebRequestHTTP txn r'; EvSetWebResponse txn] in
  txn_name txn = req_Method r +:+ " " +:+ Path (req_URL r) ∧
  FromContext (Request_Context r') = Some txn ∧
  EvStartTransaction txn ∈ tr1 ∧
  withNewRelic app next w r tr = ((next w r' tr1).1, (next w r' tr1).2 ++ [EvEnd txn]) ∧
  last (withNewRelic app next w r tr).2 = Some (EvEnd txn).
Proof.
  intros txn r' tr1.
  assert (Hrun : withNewRelic app next w r tr =
                 ((next w r' tr1).1, (next w r' tr1).2 ++ [EvEnd txn])).
  { unfold withNewRelic, defer, StartTransaction, SetWebRequestHTTP, SetWebResponse, End.
    run_M. fold (request_txn r tr). fold txn. fold r'.
    by rewrite <- !app_assoc. }
  split; [done|]. split; [done|]. split.
  { unfold tr1. apply elem_of_app. right. apply elem_of_cons. by left. }
  split; [exact Hrun|].
  rewrite Hrun. cbn [snd]. apply last_snoc.
Qed.

(** The middleware around a handler that panics: the panic reaches the
    caller, and the transaction has been ended. *)
Example middleware_panicking_run :
  withNewRelic sample_app panicking NewResponseWriter (sample_request "/") [] =
    ((Panicked "runtime error: index out of range", NewResponseWriter),
     [EvStartTransaction {| txn_id := 0; txn_name := "GET /" |};
      EvSetWebRequestHTTP {| txn_id := 0; txn_name := "GET /" |}
        (Request_WithContext (sample_request "/")
           (WithTransaction Background {| txn_id := 0; txn_name := "GET /" |}));
      EvSetWebResponse {| txn_id := 0; txn_name := "GET /" |};
      EvEnd {| txn_id := 0; txn_name := "GET /" |}]).
Proof. reflexivity. Qed.

(** C8.  When the licence key is not in the environment, [main] prints
    that the key is required and exits with status 1.  That line is all
    it adds to the trace: the instrumentation application is not created,
    no listener is bound, no request is served. *)
Theorem missing_license_key_exits (env : Env) (tr : list Event) :
  environ env !! "NEWRELIC_LICENSE_KEY" = None →
  main env tr = (1, tr ++ [EvPrintf "NEWRELIC_LICENSE_KEY required"]) ∧
  run env tr = (Some (ErrorString "NEWRELIC_LICENSE_KEY required"), tr).
Proof.
  intros Hkey.
  assert (Hrun : run env tr = (Some (ErrorString "NEWRELIC_LICENSE_KEY required"), tr)).
  { unfold run, os_Getenv. rewrite Hkey. reflexivity. }
  split; [|exact Hrun].
  unfold main. cbv [mbind M_bind]. cbv zeta. rewrite Hrun. reflexivity.
Qed.

Lemma missing_license_key_exits_witness :
  environ unconfigured_env !! "NEWRELIC_LICENSE_KEY" = None ∧
  main unconfigured_env [] = (1, [] ++ [EvPrintf "NEWRELIC_LICENSE_KEY required"]) ∧
  run unconfigured_env [] = (Some (ErrorString "NEWRELIC_LICENSE_KEY required"), []).
Proof.
  split; [reflexivity|].
  exact (missing_license_key_exits unconfigured_env [] eq_refl).
Defined.

(** ** The whole server on the sample world

    The licence key is set, the listener accepts [GET /fetch] and then
    [GET /], and the server is closed.  Each request runs inside one
    transaction; the fetch is followed by the one POST of the relay, whose
    503 answer is printed and has no other effect, and then by the
    response. *)
Example main_sample_run :
  let fetch_txn := {| txn_id := 3; txn_name := "GET /fetch" |} in
  let root_txn := {| txn_id := 12; txn_name := "GET /" |} in
  let in_fetch := WithTransaction Background fetch_txn in
  main sample_env [] =
    (0,
     [EvNewApplication "0123456789abcdef";
      EvPrintf "start server";
      EvListenAndServe ":8000";
      EvStartTransaction fetch_txn;
      EvSetWebRequestHTTP fetch_txn (Request_WithContext (sample_request "/fetch") in_fetch);
      EvSetWebResponse fetch_txn;
      EvDo httpClient (fetch_request (Request_WithContext (sample_request "/fetch") in_fetch));
      EvDo DefaultClient
        (relay_request sample_logger in_fetch
           (json_text
              (JArray [JObject [("logs", JArray [JObject
                 [("message", JString "done fetch: status=200");
                  ("span.id", JString "00f067aa");
                  ("timestamp", JNumber 1700000000123);
                  ("trace.id", JString "4bf92f35")]])]])));
      EvPrintf "post log status=503";
      EvWriteHeader 200 {[ "Content-Type" := "application/json" ]};
      EvWrite (json_text (status_json 200) +:+ newline);
      EvEnd fetch_txn;
      EvStartTransaction root_txn;
      EvSetWebRequestHTTP root_txn
        (Request_WithContext (sample_request "/") (WithTransaction Background root_txn));
      EvSetWebResponse root_txn;
      EvWriteHeader 200 ∅;
      EvWrite ("OK" +:+ newline);
      EvEnd root_txn]).
Proof. vm_compute. reflexivity. Qed.

(** ** Further properties of the relay *)



Lemma json_Marshal_supported (datas : list logBody) :
  Forall (λ m, ¬ unsupported m) datas →
  ∃ body, json_Marshal [{| Logs := datas |}] = Ok body.
Proof.
  intros Hall.
  destruct (mapM_all_Ok logBody_json datas) as [logs Hlogs].
  { eapply Forall_impl; [exact Hall|]. intros m Hm. by apply logBody_json_Ok. }
  unfold json_Marshal, batch_json, detailedLog_json, logs_json.
  cbn [mapM Logs]. rewrite Hlogs. by eexists.
Qed.

(** What [log] adds to a trace: nothing, or the call of the client and
    one printed line. *)
Lemma log_events (env : Env) (l : contextLogger) (c : Context) (msg : string)
    (tr : list Event) :
  log env l c msg tr = (tt, tr) ∨
  ∃ body line,
    log env l c msg tr =
      (tt, tr ++ [EvDo DefaultClient (relay_request l c body); EvPrintf line]).
Proof.
  destruct (FromContext c) as [txn|] eqn:Hc.
  - right. destruct (log_trace env l c txn msg tr Hc) as (body & line & _ & Hlog).
    by exists body, line.
  - left. unfold log. by rewrite Hc.
Qed.

(** X1.  The relay is best effort: when a transaction is active and the
    call of the client fails, [log] prints the error with the prefix
    [! error=Do: ] and returns; the failure goes no further. *)
Theorem log_prints_transport_error (env : Env) (l : contextLogger) (c : Context)
    (txn : Transaction) (msg : string) (tr : list Event) (body : string) (err : error) :
  FromContext c = Some txn →
  json_Marshal [{| Logs := [(buildRecord env txn msg tr).1] |}] = Ok body →
  round_trip env tr DefaultClient (relay_request l c body) = Err err →
  log env l c msg tr =
    (tt, tr ++ [EvDo DefaultClient (relay_request l c body);
                EvPrintf ("! error=Do: " +:+ Error err)]).
Proof.
  intros Hc Hbody Hresp. unfold log. rewrite Hc. cbv [mbind M_bind]. cbv zeta.
  replace (buildRecord env txn msg tr).2 with tr by done.
  rewrite (send_Do env l c _ _ _ Hbody) by (by destruct c).
  rewrite Hresp. cbn [fst snd]. run_M. by rewrite <- app_assoc.
Qed.

Lemma log_prints_transport_error_witness :
  FromContext sample_ctx = Some sample_txn ∧
  json_Marshal [{| Logs := [(buildRecord offline_env sample_txn "hello" []).1] |}] =
    Ok (json_text
          (JArray [JObject [("logs", JArray [JObject
             [("message", JString "hello");
              ("span.id", JString "00f067aa");
              ("timestamp", JNumber 1700000000123);
              ("trace.id", JString "4bf92f35")]])]])) ∧
  log offline_env sample_logger sample_ctx "hello" [] =
    (tt,
     [] ++
     [EvDo DefaultClient
        (relay_request sample_logger sample_ctx
           (json_text
              (JArray [JObject [("logs", JArray [JObject
                 [("message", JString "hello");
                  ("span.id", JString "00f067aa");
                  ("timestamp", JNumber 1700000000123);
                  ("trace.id", JString "4bf92f35")]])]])));
      EvPrintf ("! error=Do: " +:+ Error (ErrorString "dial tcp: connection refused"))]).
Proof.
  assert (Hbody :
    json_Marshal [{| Logs := [(buildRecord offline_env sample_txn "hello" []).1] |}] =
    Ok (json_text
          (JArray [JObject [("logs", JArray [JObject
             [("message", JString "hello");
              ("span.id", JString "00f067aa");
              ("timestamp", JNumber 1700000000123);
              ("trace.id", JString "4bf92f35")]])]]))) by (vm_compute; reflexivity).
  split; [reflexivity|]. split; [exact Hbody|].
  exact (log_prints_transport_error offline_env sample_logger sample_ctx sample_txn
           "hello" [] _ (ErrorString "dial tcp: connection refused")
           eq_refl Hbody eq_refl).
Defined.



(** The run of X2 on a record that holds a channel: the error names the
    type of the channel. *)
Example send_channel_run :
  send sample_env sample_logger Background [{[ "done" := VUnsupported "chan int" ]}] [] =
    (Some (ErrorString "json.Marshal: json: unsupported type: chan int"), []).
Proof. vm_compute. reflexivity. Qed.

(** A nil slice of records is written as [null], an empty one as an empty
    array. *)
Example json_Marshal_nil_slice :
  json_Marshal [{| Logs := nil_slice |}] =
    Ok (json_text (JArray [JObject [("logs", JNull)]])) ∧
  json_Marshal [{| Logs := Slice [] |}] =
    Ok (json_text (JArray [JObject [("logs", JArray [])]])).
Proof. split; reflexivity. Qed.

(** X3.  When no record holds a value the encoder refuses and the context
    is not nil, [send] calls the client exactly once.  The request is a
    POST to the ingestion endpoint under the context given to [send]; it
    carries the API key of the logger in [X-License-Key], the content type
    [application/json], and the serialized batch as its body.  [send]
    returns nil when the call is answered and the wrapped error when it
    fails. *)
Theorem send_posts_once (env : Env) (l : contextLogger) (c : Context)
    (datas : list logBody) (tr : list Event) :
  Forall (λ m, ¬ unsupported m) datas →
  c ≠ NilContext →
  ∃ req,
    outbound (send env l c datas tr).2 = outbound tr ++ [(DefaultClient, req)] ∧
    req_Method req = MethodPost ∧
    req_URL req = log_api_url ∧
    req_Header req !! "X-License-Key" = Some (apiKey l) ∧
    req_Header req !! "Content-Type" = Some "application/json" ∧
    req_ctx req = c ∧
    json_Marshal [{| Logs := datas |}] = Ok (req_Body req) ∧
    (send env l c datas tr).1 =
      match round_trip env tr DefaultClient req with
      | Ok _ => None
      | Err err => Some (Errorf "Do: " err)
      end.
Proof.
  intros Hall Hc. destruct (json_Marshal_supported _ Hall) as [body Hbody].
  exists (relay_request l c body).
  rewrite (send_Do env l c datas tr body Hbody Hc).
  split.
  { unfold outbound.
    destruct (round_trip _ _ _ _); cbn [snd]; rewrite omap_app; cbn [omap list_omap];
      reflexivity. }
  do 2 (split; [reflexivity|]).
  split. { cbn [relay_request req_Header]. rewrite lookup_insert_ne by done.
           by rewrite lookup_insert_eq. }
  split. { cbn [relay_request req_Header]. by rewrite lookup_insert_eq. }
  split; [reflexivity|]. split; [exact Hbody|].
  by destruct (round_trip _ _ _ _).
Qed.

Lemma send_posts_once_witness :
  Forall (λ m, ¬ unsupported m) sample_datas ∧
  sample_ctx ≠ NilContext ∧
  ∃ req,
    outbound (send sample_env sample_logger sample_ctx sample_datas []).2 =
      outbound [] ++ [(DefaultClient, req)] ∧
    req_Method req = MethodPost ∧
    req_URL req = log_api_url ∧
    req_Header req !! "X-License-Key" = Some (apiKey sample_logger) ∧
    req_Header req !! "Content-Type" = Some "application/json" ∧
    req_ctx req = sample_ctx ∧
    json_Marshal [{| Logs := sample_datas |}] = Ok (req_Body req) ∧
    (send sample_env sample_logger sample_ctx sample_datas []).1 =
      match round_trip sample_env [] DefaultClient req with
      | Ok _ => None
      | Err err => Some (Errorf "Do: " err)
      end.
Proof.
  assert (Hall : Forall (λ m, ¬ unsupported m) sample_datas).
  { apply Forall_cons. split; [|apply Forall_nil_2].
    intros (k & type & Hk). apply lookup_singleton_Some in Hk as [_ Hk]. discriminate. }
  assert (Hc : sample_ctx ≠ NilContext) by discriminate.
  split; [exact Hall|]. split; [exact Hc|].
  exact (send_posts_once sample_env sample_logger sample_ctx sample_datas [] Hall Hc).
Defined.

(** ** Further properties of the routes and of the middleware *)

Lemma outbound_response (evs : list Event) :
  Forall is_response evs → outbound evs = [].
Proof.
  induction 1 as [|e evs He _ IH]; [done|].
  unfold outbound in *. by destruct e.
Qed.

Lemma relay_posts_response (evs : list Event) :
  Forall is_response evs → relay_posts evs = [].
Proof.
  induction 1 as [|e evs He _ IH]; [done|].
  unfold relay_posts in *. by destruct e.
Qed.

Lemma Write_response (data : string) (w : ResponseWriter) (tr : list Event) :
  ∃ w' evs, Write data w tr = (w', tr ++ evs) ∧ Forall is_response evs.
Proof.
  destruct w as [h [code|] body].
  - rewrite Write_written. eexists _, _. split; [reflexivity|].
    by repeat constructor.
  - rewrite Write_unwritten. eexists _, _. split; [reflexivity|].
    by repeat constructor.
Qed.

Lemma http_Error_response (w : ResponseWriter) (msg : string) (code : Z)
    (tr : list Event) :
  ∃ w' evs, http_Error w msg code tr = (w', tr ++ evs) ∧ Forall is_response evs.
Proof.
  destruct w as [h [code'|] body];
    unfold http_Error, fmt_Fprintln, Header_Set, Header_Del;
    cbn [rw_Header rw_Code rw_Body]; run_M.
  - change (WriteHeader code {| rw_Header := ?h'; rw_Code := Some code'; rw_Body := body |} tr)
      with ({| rw_Header := h'; rw_Code := Some code'; rw_Body := body |}, tr).
    cbn [fst snd]. rewrite Write_written. eexists _, _. split; [reflexivity|].
    by repeat constructor.
  - rewrite WriteHeader_unwritten. cbn [fst snd]. rewrite Write_written.
    rewrite <- app_assoc. eexists _, _. split; [reflexivity|].
    by repeat constructor.
Qed.

(** The handler of [GET /fetch], one step at a time. *)
Lemma handleFetch_run (env : Env) (cl : contextLogger) (w : ResponseWriter)
    (r : Request) (params : gmap string string) (tr : list Event) :
  handleFetch env cl w r params tr =
    match round_trip env tr httpClient (fetch_request r) with
    | Err err =>
        let res := http_Error w ("failed to send request: " +:+ Error err)
                     StatusInternalServerError (tr ++ [EvDo httpClient (fetch_request r)]) in
        ((Returned, res.1), res.2)
    | Ok resp =>
        let relayed :=
          log env cl (Request_Context r)
            ("done fetch: status=" +:+ fmt_d (StatusCode resp))
            (tr ++ [EvDo httpClient (fetch_request r)]) in
        let res := Encode (Header_Set "Content-Type" "application/json" w)
                     (status_json (StatusCode resp)) relayed.2 in
        ((Returned, res.1), res.2)
    end.
Proof.
  unfold handleFetch. rewrite fetch_request_built.
  cbv [mbind M_bind Client_Do mret M_ret]. cbv zeta. cbn [fst snd].
  by destruct (round_trip _ _ _ _).
Qed.

Lemma withNewRelic_run (app : Application) (next : Handler) (w : ResponseWriter)
    (r : Request) (tr : list Event) :
  withNewRelic app next w r tr =
    let txn := request_txn r tr in
    let r' := RequestWithTransactionContext r txn in
    let res := next w r' (tr ++ [EvStartTransaction txn; EvSetWebRequestHTTP txn r';
                                 EvSetWebResponse txn]) in
    (res.1, res.2 ++ [EvEnd txn]).
Proof.
  unfold withNewRelic, defer, StartTransaction, SetWebRequestHTTP, SetWebResponse, End.
  run_M. fold (request_txn r tr). cbv zeta. by rewrite <- !app_assoc.
Qed.

Lemma mux_root_route (env : Env) (app : Application) (cl : contextLogger)
    (w : ResponseWriter) (r : Request) (tr : list Event) :
  req_Method r = MethodGet → Path (req_URL r) = "/" →
  mux env app cl w r tr = withNewRelic app (λ w r, handleRoot w r ∅) w r tr.
Proof. intros Hm Hp. unfold mux. by rewrite bool_decide_eq_true_2. Qed.

Lemma mux_fetch_route (env : Env) (app : Application) (cl : contextLogger)
    (w : ResponseWriter) (r : Request) (tr : list Event) :
  req_Method r = MethodGet → Path (req_URL r) = "/fetch" →
  mux env app cl w r tr = withNewRelic app (λ w r, handleFetch env cl w r ∅) w r tr.
Proof.
  intros Hm Hp. unfold mux.
  rewrite bool_decide_eq_false_2 by (rewrite Hp; intros [_ [=]]).
  by rewrite bool_decide_eq_true_2.
Qed.

(** X4.  The handler of [GET /fetch] never panics and, whatever the
    writer and the outside world, makes exactly one fetch, under the
    context of the inbound request, followed by at most one call of the
    relay's client, under the same context. *)
Theorem fetch_handler_outbound (env : Env) (cl : contextLogger) (w : ResponseWriter)
    (r : Request) (params : gmap string string) (tr : list Event) :
  ∃ w' evs posts,
    handleFetch env cl w r params tr = ((Returned, w'), tr ++ evs) ∧
    outbound evs = (httpClient, fetch_request r) :: posts ∧
    req_Method (fetch_request r) = MethodGet ∧
    req_URL (fetch_request r) = fetch_url ∧
    req_ctx (fetch_request r) = Request_Context r ∧
    (posts = [] ∨
     ∃ body, posts = [(DefaultClient, relay_request cl (Request_Context r) body)]).
Proof.
  rewrite handleFetch_run.
  destruct (round_trip _ _ _ _) as [resp|err]; cbv zeta.
  - destruct (log_events env cl (Request_Context r)
                ("done fetch: status=" +:+ fmt_d (StatusCode resp))
                (tr ++ [EvDo httpClient (fetch_request r)]))
      as [Hlog|(body & line & Hlog)]; rewrite Hlog; cbn [snd]; unfold Encode.
    + destruct (Write_response (json_text (status_json (StatusCode resp)) +:+ newline)
                  (Header_Set "Content-Type" "application/json" w)
                  (tr ++ [EvDo httpClient (fetch_request r)])) as (w' & evs & -> & Hevs).
      exists w', (EvDo httpClient (fetch_request r) :: evs), [].
      split; [by rewrite <- app_assoc|]. split.
      { unfold outbound. cbn [omap list_omap]. f_equal. by apply outbound_response. }
      do 3 (split; [reflexivity|]). by left.
    + destruct (Write_response (json_text (status_json (StatusCode resp)) +:+ newline)
                  (Header_Set "Content-Type" "application/json" w)
                  ((tr ++ [EvDo httpClient (fetch_request r)]) ++
                   [EvDo DefaultClient (relay_request cl (Request_Context r) body);
                    EvPrintf line])) as (w' & evs & -> & Hevs).
      exists w', (EvDo httpClient (fetch_request r) ::
                  EvDo DefaultClient (relay_request cl (Request_Context r) body) ::
                  EvPrintf line :: evs),
        [(DefaultClient, relay_request cl (Request_Context r) body)].
      split; [by rewrite <- !app_assoc|]. split.
      { unfold outbound. cbn [omap list_omap]. do 2 f_equal. by apply outbound_response. }
      do 3 (split; [reflexivity|]). right. by exists body.
  - destruct (http_Error_response w ("failed to send request: " +:+ Error err)
                StatusInternalServerError (tr ++ [EvDo httpClient (fetch_request r)]))
      as (w' & evs & -> & Hevs).
    exists w', (EvDo httpClient (fetch_request r) :: evs), [].
    split; [by rewrite <- app_assoc|]. split.
    { unfold outbound. cbn [omap list_omap]. f_equal. by apply outbound_response. }
    do 3 (split; [reflexivity|]). by left.
Qed.

Lemma handleRoot_run (h params : gmap string string) (r : Request) (tr : list Event) :
  handleRoot (unwritten h) r params tr =
    ((Returned, {| rw_Header := h; rw_Code := Some 200; rw_Body := "OK" +:+ newline |}),
     tr ++ [EvWriteHeader 200 h; EvWrite ("OK" +:+ newline)]).
Proof. unfold handleRoot, fmt_Fprintln, unwritten. run_M. by rewrite Write_unwritten. Qed.

Lemma Request_Context_with_transaction (r : Request) (txn : Transaction) :
  Request_Context (RequestWithTransactionContext r txn) =
    WithTransaction (Request_Context r) txn.
Proof. reflexivity. Qed.

(** X5.  A [GET /] through the router runs inside one transaction: the
    middleware starts it, the handler answers 200 with [OK], the middleware
    ends it; the response is that of the handler, unchanged, and no HTTP
    client is called. *)
Theorem mux_root (env : Env) (app : Application) (cl : contextLogger)
    (h : gmap string string) (r : Request) (tr : list Event) :
  req_Method r = MethodGet →
  Path (req_URL r) = "/" →
  let txn := request_txn r tr in
  let r' := RequestWithTransactionContext r txn in
  mux env app cl (unwritten h) r tr =
    ((Returned, {| rw_Header := h; rw_Code := Some 200; rw_Body := "OK" +:+ newline |}),
     tr ++ [EvStartTransaction txn; EvSetWebRequestHTTP txn r'; EvSetWebResponse txn;
            EvWriteHeader 200 h; EvWrite ("OK" +:+ newline); EvEnd txn]) ∧
  txn_name txn = "GET /" ∧
  outbound (mux env app cl (unwritten h) r tr).2 = outbound tr.
Proof.
  intros Hm Hp txn r'.
  assert (Hrun : mux env app cl (unwritten h) r tr =
    ((Returned, {| rw_Header := h; rw_Code := Some 200; rw_Body := "OK" +:+ newline |}),
     tr ++ [EvStartTransaction txn; EvSetWebRequestHTTP txn r'; EvSetWebResponse txn;
            EvWriteHeader 200 h; EvWrite ("OK" +:+ newline); EvEnd txn])).
  { rewrite mux_root_route, withNewRelic_run by done. cbv zeta.
    rewrite handleRoot_run. cbn [fst snd]. by rewrite <- !app_assoc. }
  split; [exact Hrun|]. split.
  { unfold txn, request_txn. cbn [txn_name]. by rewrite Hm, Hp. }
  rewrite Hrun. cbn [snd]. unfold outbound. rewrite omap_app.
  cbn [omap list_omap]. by rewrite app_nil_r.
Qed.

Lemma mux_root_witness :
  req_Method (sample_request "/") = MethodGet ∧
  Path (req_URL (sample_request "/")) = "/" ∧
  mux sample_env sample_app sample_logger (unwritten ∅) (sample_request "/") [] =
    ((Returned, {| rw_Header := ∅; rw_Code := Some 200; rw_Body := "OK" +:+ newline |}),
     [] ++
     [EvStartTransaction (request_txn (sample_request "/") []);
      EvSetWebRequestHTTP (request_txn (sample_request "/") [])
        (RequestWithTransactionContext (sample_request "/")
           (request_txn (sample_request "/") []));
      EvSetWebResponse (request_txn (sample_request "/") []);
      EvWriteHeader 200 ∅; EvWrite ("OK" +:+ newline);
      EvEnd (request_txn (sample_request "/") [])]) ∧
  txn_name (request_txn (sample_request "/") []) = "GET /" ∧
  outbound (mux sample_env sample_app sample_logger (unwritten ∅)
              (sample_request "/") []).2 = outbound [].
Proof.
  split; [reflexivity|]. split; [reflexivity|].
  exact (mux_root sample_env sample_app sample_logger ∅ (sample_request "/") []
           eq_refl eq_refl).
Defined.

(** X6.  A [GET /fetch] through the router whose fetch is answered with
    status [S] gives, in this order: the start of the transaction, the
    fetch, one POST of the relay, one printed line, the response (200 and
    the text of [{"Status": S}]), the end of the transaction.  The fetch
    and the POST both run under the context that carries the transaction
    of the middleware, and the record of the POST has the message
    [done fetch: status=S]. *)
Theorem mux_fetch_success (env : Env) (app : Application) (cl : contextLogger)
    (h : gmap string string) (r : Request) (tr : list Event) (resp : Response) :
  req_Method r = MethodGet →
  Path (req_URL r) = "/fetch" →
  let txn := request_txn r tr in
  let r' := RequestWithTransactionContext r txn in
  let tr1 := tr ++ [EvStartTransaction txn; EvSetWebRequestHTTP txn r';
                    EvSetWebResponse txn] in
  round_trip env tr1 httpClient (fetch_request r') = Ok resp →
  let header := <["Content-Type" := "application/json"]> h in
  let text := json_text (status_json (StatusCode resp)) +:+ newline in
  ∃ line members,
    mux env app cl (unwritten h) r tr =
      ((Returned, {| rw_Header := header; rw_Code := Some 200; rw_Body := text |}),
       tr1 ++ [EvDo httpClient (fetch_request r');
               EvDo DefaultClient
                 (relay_request cl (Request_Context r')
                    (json_text (JArray [JObject [("logs", JArray [JObject members])]])));
               EvPrintf line;
               EvWriteHeader 200 header; EvWrite text;
               EvEnd txn]) ∧
    FromContext (Request_Context r') = Some txn ∧
    member KeyMessage members =
      Some (JString ("done fetch: status=" +:+ fmt_d (StatusCode resp))).
Proof.
  intros Hm Hp txn r' tr1 Hresp header text.
  set (msg := "done fetch: status=" +:+ fmt_d (StatusCode resp)).
  set (tr2 := tr1 ++ [EvDo httpClient (fetch_request r')]).
  assert (Hc : FromContext (Request_Context r') = Some txn) by done.
  destruct (log_trace env cl (Request_Context r') txn msg tr2 Hc)
    as (body & line & Hbody & Hlog).
  destruct (buildRecord_Marshal env txn msg tr2) as (members & Hbody' & Hmem).
  rewrite Hbody' in Hbody. injection Hbody as <-.
  exists line, members. split; [|split; [exact Hc|]].
  - rewrite mux_fetch_route, withNewRelic_run by done. cbv zeta.
    fold txn. fold r'. fold tr1. rewrite handleFetch_run, Hresp. cbv zeta.
    fold msg. fold tr2. rewrite Hlog. cbn [fst snd].
    unfold Encode, Header_Set, unwritten. cbn [rw_Header rw_Code rw_Body].
    rewrite Write_unwritten. cbn [fst snd]. unfold tr2.
    by rewrite <- !app_assoc.
  - rewrite Hmem, buildRecord_lookup. by rewrite decide_True.
Qed.

(** X7.  A [GET /fetch] through the router whose fetch fails is answered
    with 500 and the diagnostic; the transaction is still ended, and the
    relay's client is not called. *)
Theorem mux_fetch_failure (env : Env) (app : Application) (cl : contextLogger)
    (h : gmap string string) (r : Request) (tr : list Event) (err : error) :
  req_Method r = MethodGet →
  Path (req_URL r) = "/fetch" →
  let txn := request_txn r tr in
  let r' := RequestWithTransactionContext r txn in
  let tr1 := tr ++ [EvStartTransaction txn; EvSetWebRequestHTTP txn r';
                    EvSetWebResponse txn] in
  round_trip env tr1 httpClient (fetch_request r') = Err err →
  let text := ("failed to send request: " +:+ Error err) +:+ newline in
  mux env app cl (unwritten h) r tr =
    ((Returned, {| rw_Header := error_header h; rw_Code := Some 500; rw_Body := text |}),
     tr1 ++ [EvDo httpClient (fetch_request r');
             EvWriteHeader 500 (error_header h); EvWrite text;
             EvEnd txn]) ∧
  relay_posts (mux env app cl (unwritten h) r tr).2 = relay_posts tr.
Proof.
  intros Hm Hp txn r' tr1 Hresp text.
  assert (Hrun : mux env app cl (unwritten h) r tr =
    ((Returned, {| rw_Header := error_header h; rw_Code := Some 500; rw_Body := text |}),
     tr1 ++ [EvDo httpClient (fetch_request r');
             EvWriteHeader 500 (error_header h); EvWrite text;
             EvEnd txn])).
  { rewrite mux_fetch_route, withNewRelic_run by done. cbv zeta.
    fold txn. fold r'. fold tr1. rewrite handleFetch_run, Hresp. cbv zeta.
    rewrite http_Error_unwritten. cbn [fst snd]. by rewrite <- !app_assoc. }
  split; [exact Hrun|].
  rewrite Hrun. cbn [snd]. unfold tr1, relay_posts. rewrite !omap_app.
  cbn [omap list_omap]. by rewrite !app_nil_r.
Qed.

Lemma mux_fetch_success_witness :
  req_Method (sample_request "/fetch") = MethodGet ∧
  Path (req_URL (sample_request "/fetch")) = "/fetch" ∧
  round_trip sample_env sample_fetch_started httpClient (fetch_request sample_fetch_seen) =
    Ok {| StatusCode := 200 |} ∧
  ∃ line members,
    mux sample_env sample_app sample_logger (unwritten ∅) (sample_request "/fetch") [] =
      ((Returned,
        {| rw_Header := <["Content-Type" := "application/json"]> ∅;
           rw_Code := Some 200;
           rw_Body := json_text (status_json 200) +:+ newline |}),
       sample_fetch_started ++
       [EvDo httpClient (fetch_request sample_fetch_seen);
        EvDo DefaultClient
          (relay_request sample_logger (Request_Context sample_fetch_seen)
             (json_text (JArray [JObject [("logs", JArray [JObject members])]])));
        EvPrintf line;
        EvWriteHeader 200 (<["Content-Type" := "application/json"]> ∅);
        EvWrite (json_text (status_json 200) +:+ newline);
        EvEnd sample_fetch_txn]) ∧
    FromContext (Request_Context sample_fetch_seen) = Some sample_fetch_txn ∧
    member KeyMessage members = Some (JString ("done fetch: status=" +:+ fmt_d 200)).
Proof.
  split; [reflexivity|]. split; [reflexivity|]. split; [reflexivity|].
  exact (mux_fetch_success sample_env sample_app sample_logger ∅
           (sample_request "/fetch") [] {| StatusCode := 200 |} eq_refl eq_refl eq_refl).
Defined.

Lemma mux_fetch_failure_witness :
  req_Method (sample_request "/fetch") = MethodGet ∧
  Path (req_URL (sample_request "/fetch")) = "/fetch" ∧
  round_trip offline_env sample_fetch_started httpClient (fetch_request sample_fetch_seen) =
    Err (ErrorString "dial tcp: connection refused") ∧
  mux offline_env sample_app sample_logger (unwritten ∅) (sample_request "/fetch") [] =
    ((Returned,
      {| rw_Header := error_header ∅; rw_Code := Some 500;
         rw_Body := ("failed to send request: " +:+
                     Error (ErrorString "dial tcp: connection refused")) +:+ newline |}),
     sample_fetch_started ++
     [EvDo httpClient (fetch_request sample_fetch_seen);
      EvWriteHeader 500 (error_header ∅);
      EvWrite (("failed to send request: " +:+
                Error (ErrorString "dial tcp: connection refused")) +:+ newline);
      EvEnd sample_fetch_txn]) ∧
  relay_posts (mux offline_env sample_app sample_logger (unwritten ∅)
                 (sample_request "/fetch") []).2 = relay_posts [].
Proof.
  split; [reflexivity|]. split; [reflexivity|]. split; [reflexivity|].
  exact (mux_fetch_failure offline_env sample_app sample_logger ∅
           (sample_request "/fetch") [] (ErrorString "dial tcp: connection refused")
           eq_refl eq_refl eq_refl).
Defined.

(** ** Properties of the serving loop *)

Lemma response_plain (evs : list Event) : Forall is_response evs → Forall is_plain evs.
Proof. intros H. eapply Forall_impl; [exact H|]. by intros []. Qed.

Lemma open_step_plain (open : list Transaction) (evs : list Event) :
  Forall is_plain evs → foldl open_step open evs = open.
Proof.
  induction 1 as [|e evs He _ IH]; [done|].
  cbn [foldl]. by destruct e.
Qed.

Lemma close_txn_head (txn : Transaction) (open : list Transaction) :
  close_txn txn (txn :: open) = open.
Proof. cbn [close_txn]. by rewrite decide_True. Qed.

Lemma relay_request_with (cl : contextLogger) (c : Context) (body : string) :
  relay_post_with (apiKey cl) (relay_request cl c body).
Proof.
  split; [done|]. split; [done|]. cbn [relay_request req_Header].
  rewrite lookup_insert_ne by done. by rewrite lookup_insert_eq.
Qed.

(** What the handler of [GET /fetch] adds to a trace, for any writer. *)
Lemma handleFetch_events (env : Env) (cl : contextLogger) (w : ResponseWriter)
    (r : Request) (params : gmap string string) (tr : list Event) :
  ∃ w' evs,
    handleFetch env cl w r params tr = ((Returned, w'), tr ++ evs) ∧
    Forall is_plain evs ∧
    (length (relay_posts evs) ≤ 1)%nat ∧
    Forall (relay_post_with (apiKey cl)) (relay_posts evs).
Proof.
  rewrite handleFetch_run.
  destruct (round_trip _ _ _ _) as [resp|err]; cbv zeta.
  - destruct (log_events env cl (Request_Context r)
                ("done fetch: status=" +:+ fmt_d (StatusCode resp))
                (tr ++ [EvDo httpClient (fetch_request r)]))
      as [Hlog|(body & line & Hlog)]; rewrite Hlog; cbn [snd]; unfold Encode.
    + destruct (Write_response (json_text (status_json (StatusCode resp)) +:+ newline)
                  (Header_Set "Content-Type" "application/json" w)
                  (tr ++ [EvDo httpClient (fetch_request r)])) as (w' & evs & -> & Hevs).
      exists w', (EvDo httpClient (fetch_request r) :: evs).
      split; [by rewrite <- app_assoc|].
      split; [constructor; [done|by apply response_plain]|].
      change (relay_posts (EvDo httpClient (fetch_request r) :: evs)) with (relay_posts evs).
      rewrite (relay_posts_response _ Hevs). split; [simpl; lia|constructor].
    + destruct (Write_response (json_text (status_json (StatusCode resp)) +:+ newline)
                  (Header_Set "Content-Type" "application/json" w)
                  ((tr ++ [EvDo httpClient (fetch_request r)]) ++
                   [EvDo DefaultClient (relay_request cl (Request_Context r) body);
                    EvPrintf line])) as (w' & evs & -> & Hevs).
      exists w', (EvDo httpClient (fetch_request r) ::
                  EvDo DefaultClient (relay_request cl (Request_Context r) body) ::
                  EvPrintf line :: evs).
      split; [by rewrite <- !app_assoc|].
      split; [repeat (constructor; [done|]); by apply response_plain|].
      change (relay_posts (EvDo httpClient (fetch_request r) ::
                           EvDo DefaultClient (relay_request cl (Request_Context r) body) ::
                           EvPrintf line :: evs))
        with (relay_request cl (Request_Context r) body :: relay_posts evs).
      rewrite (relay_posts_response _ Hevs). split; [simpl; lia|].
      constructor; [apply relay_request_with|constructor].
  - destruct (http_Error_response w ("failed to send request: " +:+ Error err)
                StatusInternalServerError (tr ++ [EvDo httpClient (fetch_request r)]))
      as (w' & evs & -> & Hevs).
    exists w', (EvDo httpClient (fetch_request r) :: evs).
    split; [by rewrite <- app_assoc|].
    split; [constructor; [done|by apply response_plain]|].
    change (relay_posts (EvDo httpClient (fetch_request r) :: evs)) with (relay_posts evs).
    rewrite (relay_posts_response _ Hevs). split; [simpl; lia|constructor].
Qed.

(** What a routed request adds to a trace: the start of its transaction,
    events of the handler, the end of its transaction. *)
Lemma mux_routed_events (env : Env) (app : Application) (cl : contextLogger)
    (w : ResponseWriter) (r : Request) (tr : list Event) :
  routed r →
  ∃ res evs,
    mux env app cl w r tr =
      (res, tr ++ EvStartTransaction (request_txn r tr) :: evs ++
                  [EvEnd (request_txn r tr)]) ∧
    Forall is_plain evs ∧
    (length (relay_posts evs) ≤
       length (filter (λ r', Path (req_URL r') = "/fetch") [r]))%nat ∧
    Forall (relay_post_with (apiKey cl)) (relay_posts evs).
Proof.
  intros [Hm [Hp|Hp]].
  - rewrite mux_root_route, withNewRelic_run by done. cbv zeta.
    unfold handleRoot, fmt_Fprintln. run_M.
    destruct (Write_response ("OK" +:+ newline) w
                (tr ++ [EvStartTransaction (request_txn r tr);
                        EvSetWebRequestHTTP (request_txn r tr)
                          (RequestWithTransactionContext r (request_txn r tr));
                        EvSetWebResponse (request_txn r tr)]))
      as (w' & evs & -> & Hevs). cbn [fst snd].
    eexists _, (EvSetWebRequestHTTP _ _ :: EvSetWebResponse _ :: evs).
    split; [by rewrite <- !app_assoc|].
    split; [repeat (constructor; [done|]); by apply response_plain|].
    change (relay_posts (EvSetWebRequestHTTP ?a ?b :: EvSetWebResponse ?c :: evs))
      with (relay_posts evs).
    rewrite (relay_posts_response _ Hevs). split; [simpl; lia|constructor].
  - rewrite mux_fetch_route, withNewRelic_run by done. cbv zeta.
    destruct (handleFetch_events env cl w
                (RequestWithTransactionContext r (request_txn r tr)) ∅
                (tr ++ [EvStartTransaction (request_txn r tr);
                        EvSetWebRequestHTTP (request_txn r tr)
                          (RequestWithTransactionContext r (request_txn r tr));
                        EvSetWebResponse (request_txn r tr)]))
      as (w' & evs & -> & Hplain & Hlen & Hkey). cbn [fst snd].
    eexists _, (EvSetWebRequestHTTP _ _ :: EvSetWebResponse _ :: evs).
    split; [by rewrite <- !app_assoc|].
    split; [repeat (constructor; [done|]); done|].
    change (relay_posts (EvSetWebRequestHTTP ?a ?b :: EvSetWebResponse ?c :: evs))
      with (relay_posts evs).
    split; [|done].
    rewrite filter_cons_True by done. simpl. lia.
Qed.

Lemma serve_cons (h : Handler) (r : Request) (rs : list Request) (tr : list Event) :
  serve h (r :: rs) tr = serve h rs (h NewResponseWriter r tr).2.
Proof. reflexivity. Qed.

Lemma open_transactions_app (tr evs : list Event) :
  open_transactions (tr ++ evs) = foldl open_step (open_transactions tr) evs.
Proof. unfold open_transactions. apply foldl_app. Qed.

Lemma relay_posts_app (tr evs : list Event) :
  relay_posts (tr ++ evs) = relay_posts tr ++ relay_posts evs.
Proof. unfold relay_posts. apply omap_app. Qed.

(** X8.  The serving loop leaves no transaction open: after any sequence
    of requests for the two routes, whatever the outside world answered,
    the transactions that are started and not ended are those that were
    open before. *)
Theorem serve_ends_every_transaction (env : Env) (app : Application)
    (cl : contextLogger) (rs : list Request) (tr : list Event) :
  Forall routed rs →
  open_transactions (serve (mux env app cl) rs tr).2 = open_transactions tr.
Proof.
  intros Hrs. revert tr. induction Hrs as [|r rs Hr _ IH]; intros tr; [done|].
  rewrite serve_cons, IH.
  destruct (mux_routed_events env app cl NewResponseWriter r tr Hr)
    as (res & evs & -> & Hplain & _ & _). cbn [snd].
  rewrite open_transactions_app. cbn [foldl open_step].
  rewrite foldl_app, (open_step_plain _ _ Hplain). cbn [foldl open_step].
  apply close_txn_head.
Qed.

(** The relay's requests of the serving loop. *)
Lemma serve_posts (env : Env) (app : Application) (cl : contextLogger)
    (rs : list Request) (tr : list Event) :
  Forall routed rs →
  ∃ evs,
    (serve (mux env app cl) rs tr).2 = tr ++ evs ∧
    (length (relay_posts evs) ≤
       length (filter (λ r, Path (req_URL r) = "/fetch") rs))%nat ∧
    Forall (relay_post_with (apiKey cl)) (relay_posts evs).
Proof.
  intros Hrs. revert tr. induction Hrs as [|r rs Hr _ IH]; intros tr.
  { exists []. split; [by rewrite app_nil_r|]. split; [done|constructor]. }
  rewrite serve_cons.
  destruct (mux_routed_events env app cl NewResponseWriter r tr Hr)
    as (res & evs & -> & _ & Hlen & Hkey). cbn [snd].
  destruct (IH (tr ++ EvStartTransaction (request_txn r tr) :: evs ++
                      [EvEnd (request_txn r tr)]))
    as (evs' & -> & Hlen' & Hkey').
  exists ((EvStartTransaction (request_txn r tr) :: evs ++ [EvEnd (request_txn r tr)]) ++ evs').
  split; [by rewrite <- app_assoc|].
  assert (Hposts : relay_posts
            ((EvStartTransaction (request_txn r tr) :: evs ++ [EvEnd (request_txn r tr)]) ++
             evs') = relay_posts evs ++ relay_posts evs').
  { rewrite relay_posts_app.
    change (relay_posts (EvStartTransaction ?t :: evs ++ [EvEnd ?t']))
      with (relay_posts (evs ++ [EvEnd t'])).
    rewrite relay_posts_app. cbn [relay_posts omap list_omap]. by rewrite app_nil_r. }
  rewrite Hposts. split.
  - rewrite length_app. change (r :: rs) with ([r] ++ rs).
    rewrite filter_app, length_app. lia.
  - by apply Forall_app.
Qed.

(** X9.  The serving loop posts to the ingestion endpoint at most once per
    request for [/fetch] and never for [/]; every such request is a POST
    to the endpoint that carries the API key of the logger. *)
Theorem serve_relay_posts (env : Env) (app : Application) (cl : contextLogger)
    (rs : list Request) (tr : list Event) :
  Forall routed rs →
  ∃ evs,
    (serve (mux env app cl) rs tr).2 = tr ++ evs ∧
    (length (relay_posts evs) ≤
       length (filter (λ r, Path (req_URL r) = "/fetch") rs))%nat ∧
    Forall (relay_post_with (apiKey cl)) (relay_posts evs).
Proof. apply serve_posts. Qed.

Lemma serve_ends_every_transaction_witness :
  Forall routed (accepted sample_env) ∧
  open_transactions
    (serve (mux sample_env sample_app sample_logger) (accepted sample_env) []).2 =
  open_transactions [].
Proof.
  assert (H : Forall routed (accepted sample_env)).
  { apply Forall_cons. split; [split; [reflexivity|right; reflexivity]|].
    apply Forall_cons. split; [split; [reflexivity|left; reflexivity]|].
    apply Forall_nil_2. }
  split; [exact H|].
  exact (serve_ends_every_transaction sample_env sample_app sample_logger
           (accepted sample_env) [] H).
Defined.

Lemma serve_relay_posts_witness :
  Forall routed (accepted sample_env) ∧
  ∃ evs,
    (serve (mux sample_env sample_app sample_logger) (accepted sample_env) []).2 =
      [] ++ evs ∧
    (length (relay_posts evs) ≤
       length (filter (λ r, Path (req_URL r) = "/fetch") (accepted sample_env)))%nat ∧
    Forall (relay_post_with (apiKey sample_logger)) (relay_posts evs).
Proof.
  assert (H : Forall routed (accepted sample_env)).
  { apply Forall_cons. split; [split; [reflexivity|right; reflexivity]|].
    apply Forall_cons. split; [split; [reflexivity|left; reflexivity]|].
    apply Forall_nil_2. }
  split; [exact H|].
  exact (serve_relay_posts sample_env sample_app sample_logger (accepted sample_env) [] H).
Defined.

(** ** Further properties of start-up *)

(** [run] once the licence key is read and the application is created. *)
Lemma run_listens (env : Env) (tr : list Event) (key : string) :
  environ env !! "NEWRELIC_LICENSE_KEY" = Some key →
  key ≠ EmptyString →
  app_error env tr key = None →
  run env tr =
    (match serve_error env with
     | ErrServerClosed => None
     | err => Some err
     end,
     (serve (mux env {| app_name := "aereal-test"; app_license := key |}
                     {| apiKey := key |})
        (accepted env)
        (tr ++ [EvNewApplication key; EvPrintf "start server";
                EvListenAndServe ":8000"])).2).
Proof.
  intros Hkey Hne Happ. unfold run, os_Getenv. rewrite Hkey. cbn [default].
  cbv [mbind M_bind mret M_ret]. cbv zeta. cbn [fst snd].
  rewrite bool_decide_eq_false_2 by done.
  unfold newrelic_NewApplication, id. rewrite Happ. cbn [fst snd].
  unfold http_ListenAndServe. run_M. rewrite <- !app_assoc. cbn [app].
  by destruct (serve_error env).
Qed.

Lemma run_application_error (env : Env) (tr : list Event) (key : string) (err : error) :
  environ env !! "NEWRELIC_LICENSE_KEY" = Some key →
  key ≠ EmptyString →
  app_error env tr key = Some err →
  run env tr =
    (Some (Errorf "cannot build new relic app: " err), tr ++ [EvNewApplication key]).
Proof.
  intros Hkey Hne Happ. unfold run, os_Getenv. rewrite Hkey. cbn [default].
  cbv [mbind M_bind mret M_ret]. cbv zeta. cbn [fst snd].
  rewrite bool_decide_eq_false_2 by done.
  unfold newrelic_NewApplication, id. by rewrite Happ.
Qed.

Lemma run_key_required (env : Env) (tr : list Event) :
  default EmptyString (environ env !! "NEWRELIC_LICENSE_KEY") = EmptyString →
  run env tr = (Some (ErrorString "NEWRELIC_LICENSE_KEY required"), tr).
Proof.
  intros Hkey. unfold run, os_Getenv. rewrite Hkey. reflexivity.
Qed.

Lemma main_run (env : Env) (tr : list Event) :
  main env tr =
    match (run env tr).1 with
    | Some err => (1, (run env tr).2 ++ [EvPrintf (Error err)])
    | None => (0, (run env tr).2)
    end.
Proof.
  unfold main. cbv [mbind M_bind]. cbv zeta. by destruct (run env tr).1.
Qed.

(** X10.  When the instrumentation application cannot be created, [main]
    prints the error with the prefix [cannot build new relic app: ] and
    exits with status 1; no listener is bound and no request is served. *)
Theorem main_application_error (env : Env) (tr : list Event) (key : string)
    (err : error) :
  environ env !! "NEWRELIC_LICENSE_KEY" = Some key →
  key ≠ EmptyString →
  app_error env tr key = Some err →
  main env tr =
    (1, tr ++ [EvNewApplication key;
               EvPrintf ("cannot build new relic app: " +:+ Error err)]).
Proof.
  intros Hkey Hne Happ.
  rewrite main_run, (run_application_error env tr key err Hkey Hne Happ).
  cbn [fst snd]. by rewrite <- app_assoc.
Qed.

Lemma main_application_error_witness :
  environ refused_env !! "NEWRELIC_LICENSE_KEY" = Some "0123456789abcdef" ∧
  "0123456789abcdef" ≠ EmptyString ∧
  app_error refused_env [] "0123456789abcdef" =
    Some (ErrorString "license length is not 40") ∧
  main refused_env [] =
    (1, [] ++ [EvNewApplication "0123456789abcdef";
               EvPrintf ("cannot build new relic app: " +:+
                         Error (ErrorString "license length is not 40"))]).
Proof.
  assert (Hne : "0123456789abcdef" ≠ EmptyString) by discriminate.
  split; [reflexivity|]. split; [exact Hne|]. split; [reflexivity|].
  exact (main_application_error refused_env [] "0123456789abcdef"
           (ErrorString "license length is not 40") eq_refl Hne eq_refl).
Defined.

(** X11.  The exit status of [main] is 0 or 1, and it is 0 exactly when
    the licence key is set and not empty, the application was created,
    and the listener returned [http.ErrServerClosed]. *)
Theorem main_exit_status (env : Env) (tr : list Event) :
  ((main env tr).1 = 0 ∨ (main env tr).1 = 1) ∧
  ((main env tr).1 = 0 ↔
   ∃ key, environ env !! "NEWRELIC_LICENSE_KEY" = Some key ∧
          key ≠ EmptyString ∧
          app_error env tr key = None ∧
          serve_error env = ErrServerClosed).
Proof.
  rewrite main_run.
  destruct (environ env !! "NEWRELIC_LICENSE_KEY") as [key|] eqn:Hkey.
  2: { rewrite run_key_required by (by rewrite Hkey). cbn [fst].
       split; [by right|]. split; [done|]. by intros (key & [=] & _). }
  destruct (decide (key = EmptyString)) as [->|Hne].
  { rewrite run_key_required by (by rewrite Hkey). cbn [fst].
    split; [by right|]. split; [done|]. by intros (key & [= <-] & Hne & _). }
  destruct (app_error env tr key) as [err|] eqn:Happ.
  { rewrite (run_application_error env tr key err Hkey Hne Happ). cbn [fst].
    split; [by right|]. split; [done|].
    intros (key' & [= <-] & _ & Happ' & _). congruence. }
  rewrite (run_listens env tr key Hkey Hne Happ). cbn [fst].
  destruct (serve_error env) as [|msg] eqn:Hserve; cbn [fst].
  - split; [by left|]. split; [|done]. intros _. by exists key.
  - split; [by right|]. split; [done|]. by intros (key' & _ & _ & _ & [=]).
Qed.

(** X12.  A licence key that is set to the empty string is refused like
    one that is not set: [main] prints that the key is required and exits
    with status 1 before anything else happens. *)
Theorem main_empty_license_key (env : Env) (tr : list Event) :
  environ env !! "NEWRELIC_LICENSE_KEY" = Some EmptyString →
  main env tr = (1, tr ++ [EvPrintf "NEWRELIC_LICENSE_KEY required"]).
Proof.
  intros Hkey. rewrite main_run, run_key_required by (by rewrite Hkey). done.
Qed.

Lemma main_empty_license_key_witness :
  environ empty_key_env !! "NEWRELIC_LICENSE_KEY" = Some EmptyString ∧
  main empty_key_env [] = (1, [] ++ [EvPrintf "NEWRELIC_LICENSE_KEY required"]).
Proof.
  split; [reflexivity|].
  exact (main_empty_license_key empty_key_env [] eq_refl).
Defined.

(** X13.  With the licence key set and the application created, [main]
    creates the application with the key, prints [start server], binds
    the listener on [:8000] and serves through the router, whose relay
    holds the same key.  When the listener returns
    [http.ErrServerClosed], [main] prints nothing more and exits with
    status 0; on any other error it prints the error and exits with
    status 1. *)
Theorem main_serves (env : Env) (tr : list Event) (key : string) :
  environ env !! "NEWRELIC_LICENSE_KEY" = Some key →
  key ≠ EmptyString →
  app_error env tr key = None →
  let served :=
    (serve (mux env {| app_name := "aereal-test"; app_license := key |}
                    {| apiKey := key |})
       (accepted env)
       (tr ++ [EvNewApplication key; EvPrintf "start server";
               EvListenAndServe ":8000"])).2 in
  main env tr =
    match serve_error env with
    | ErrServerClosed => (0, served)
    | err => (1, served ++ [EvPrintf (Error err)])
    end.
Proof.
  intros Hkey Hne Happ served.
  rewrite main_run, (run_listens env tr key Hkey Hne Happ).
  by destruct (serve_error env).
Qed.

Lemma main_serves_witness :
  environ port_taken_env !! "NEWRELIC_LICENSE_KEY" = Some "0123456789abcdef" ∧
  "0123456789abcdef" ≠ EmptyString ∧
  app_error port_taken_env [] "0123456789abcdef" = None ∧
  main port_taken_env [] =
    (1,
     (serve (mux port_taken_env
               {| app_name := "aereal-test"; app_license := "0123456789abcdef" |}
               {| apiKey := "0123456789abcdef" |})
        (accepted port_taken_env)
        ([] ++ [EvNewApplication "0123456789abcdef"; EvPrintf "start server";
                EvListenAndServe ":8000"])).2 ++
     [EvPrintf (Error (ErrorString "listen tcp :8000: bind: address already in use"))]).
Proof.
  assert (Hne : "0123456789abcdef" ≠ EmptyString) by discriminate.
  split; [reflexivity|]. split; [exact Hne|]. split; [reflexivity|].
  exact (main_serves port_taken_env [] "0123456789abcdef" eq_refl Hne eq_refl).
Defined.

(** The run of X13 on a world whose port is taken. *)
Example main_port_taken_run :
  main port_taken_env [] =
    (1,
     [EvNewApplication "0123456789abcdef";
      EvPrintf "start server";
      EvListenAndServe ":8000";
      EvPrintf "listen tcp :8000: bind: address already in use"]).
Proof. vm_compute. reflexivity. Qed.

(** X14.  Whatever the outside world does, when the accepted requests
    are for the two routes every request [main] hands to the relay's
    client is a POST to the ingestion endpoint whose [X-License-Key] is
    the value of the licence key in the environment, and there is at most
    one of them per accepted request for [/fetch]. *)
Theorem main_relay_posts_carry_license_key (env : Env) (tr : list Event) :
  Forall routed (accepted env) →
  ∃ evs,
    (main env tr).2 = tr ++ evs ∧
    Forall (relay_post_with (default EmptyString (environ env !! "NEWRELIC_LICENSE_KEY")))
      (relay_posts evs) ∧
    (length (relay_posts evs) ≤
       length (filter (λ r, Path (req_URL r) = "/fetch") (accepted env)))%nat.
Proof.
  intros Hrs. rewrite main_run.
  destruct (environ env !! "NEWRELIC_LICENSE_KEY") as [key|] eqn:Hkey.
  2: { rewrite run_key_required by (by rewrite Hkey). cbn [fst snd].
       eexists. split; [reflexivity|]. split; [constructor|simpl; lia]. }
  destruct (decide (key = EmptyString)) as [->|Hne].
  { rewrite run_key_required by (by rewrite Hkey). cbn [fst snd].
    eexists. split; [reflexivity|]. split; [constructor|simpl; lia]. }
  destruct (app_error env tr key) as [err|] eqn:Happ.
  { rewrite (run_application_error env tr key err Hkey Hne Happ). cbn [fst snd].
    rewrite <- app_assoc. eexists. split; [reflexivity|].
    split; [constructor|simpl; lia]. }
  rewrite (run_listens env tr key Hkey Hne Happ). cbn [fst snd default].
  destruct (serve_posts env {| app_name := "aereal-test"; app_license := key |}
              {| apiKey := key |} (accepted env)
              (tr ++ [EvNewApplication key; EvPrintf "start server";
                      EvListenAndServe ":8000"]) Hrs)
    as (evs & -> & Hlen & Hposts).
  cbn [apiKey] in Hposts.
  destruct (serve_error env) as [|msg]; cbn [fst snd].
  - exists ([EvNewApplication key; EvPrintf "start server"; EvListenAndServe ":8000"] ++ evs).
    split; [by rewrite <- app_assoc|].
    rewrite relay_posts_app. by cbn [relay_posts omap list_omap app].
  - exists (([EvNewApplication key; EvPrintf "start server"; EvListenAndServe ":8000"] ++ evs)
            ++ [EvPrintf (Error (ErrorString msg))]).
    split; [by rewrite <- !app_assoc|].
    rewrite !relay_posts_app. cbn [relay_posts omap list_omap app].
    by rewrite app_nil_r.
Qed.

Lemma main_relay_posts_carry_license_key_witness :
  Forall routed (accepted sample_env) ∧
  ∃ evs,
    (main sample_env []).2 = [] ++ evs ∧
    Forall (relay_post_with
              (default EmptyString (environ sample_env !! "NEWRELIC_LICENSE_KEY")))
      (relay_posts evs) ∧
    (length (relay_posts evs) ≤
       length (filter (λ r, Path (req_URL r) = "/fetch") (accepted sample_env)))%nat.
Proof.
  assert (H : Forall routed (accepted sample_env)).
  { apply Forall_cons. split; [split; [reflexivity|right; reflexivity]|].
    apply Forall_cons. split; [split; [reflexivity|left; reflexivity]|].
    apply Forall_nil_2. }
  split; [exact H|].
  exact (main_relay_posts_carry_license_key sample_env [] H).
Defined.

(** ** Further properties of the record and of the transactions *)

(** X15.  Whatever the clock reads, also before the epoch, the timestamp
    field of the record [log] sends is an unsigned number: it is never
    negative and never above 18446744073709, the largest [uint64] divided
    by 1,000,000. *)
Theorem log_timestamp_range (env : Env) (l : contextLogger) (c : Context)
    (txn : Transaction) (msg : string) (tr : list Event) :
  FromContext c = Some txn →
  ∃ data body line ts,
    buildRecord env txn msg tr = (data, tr) ∧
    json_Marshal [{| Logs := [data] |}] = Ok body ∧
    log env l c msg tr =
      (tt, tr ++ [EvDo DefaultClient (relay_request l c body); EvPrintf line]) ∧
    data !! KeyTimestamp = Some (VUint64 ts) ∧
    0 <= ts <= 18446744073709.
Proof.
  intros Hc.
  destruct (log_trace env l c txn msg tr Hc) as (body & line & Hbody & Hlog).
  exists (buildRecord env txn msg tr).1, body, line,
    (uint64 (UnixNano env tr) / 1000000).
  split; [done|]. do 2 (split; [done|]).
  split; [by rewrite buildRecord_lookup|].
  unfold uint64.
  pose proof (Z.mod_pos_bound (UnixNano env tr) (2 ^ 64) eq_refl) as Hmod.
  split; [apply Z.div_pos; lia|].
  assert (UnixNano env tr mod 2 ^ 64 / 1000000 < 18446744073710); [|lia].
  apply Z.div_lt_upper_bound; lia.
Qed.

Lemma log_timestamp_range_witness :
  FromContext sample_ctx = Some sample_txn ∧
  ∃ data body line ts,
    buildRecord early_env sample_txn "hello" [] = (data, []) ∧
    json_Marshal [{| Logs := [data] |}] = Ok body ∧
    log early_env sample_logger sample_ctx "hello" [] =
      (tt, [] ++ [EvDo DefaultClient (relay_request sample_logger sample_ctx body);
                  EvPrintf line]) ∧
    data !! KeyTimestamp = Some (VUint64 ts) ∧
    0 <= ts <= 18446744073709.
Proof.
  split; [reflexivity|].
  exact (log_timestamp_range early_env sample_logger sample_ctx sample_txn "hello" []
           eq_refl).
Defined.

Lemma started_app (tr evs : list Event) : started (tr ++ evs) = started tr ++ started evs.
Proof. unfold started. apply omap_app. Qed.

Lemma started_plain (evs : list Event) : Forall is_plain evs → started evs = [].
Proof.
  induction 1 as [|e evs He _ IH]; [done|].
  unfold started in *. by destruct e.
Qed.

(** X16.  The serving loop starts exactly one transaction per request for
    the two routes, in the order of the requests, each named [GET]
    followed by the path of its request. *)
Theorem serve_one_transaction_per_request (env : Env) (app : Application)
    (cl : contextLogger) (rs : list Request) (tr : list Event) :
  Forall routed rs →
  ∃ evs,
    (serve (mux env app cl) rs tr).2 = tr ++ evs ∧
    txn_name <$> started evs = (λ r, "GET " +:+ Path (req_URL r)) <$> rs.
Proof.
  intros Hrs. revert tr. induction Hrs as [|r rs Hr _ IH]; intros tr.
  { exists []. split; [by rewrite app_nil_r|done]. }
  rewrite serve_cons.
  destruct (mux_routed_events env app cl NewResponseWriter r tr Hr)
    as (res & evs & -> & Hplain & _ & _). cbn [snd].
  destruct (IH (tr ++ EvStartTransaction (request_txn r tr) :: evs ++
                      [EvEnd (request_txn r tr)]))
    as (evs' & -> & Hnames).
  exists ((EvStartTransaction (request_txn r tr) :: evs ++ [EvEnd (request_txn r tr)]) ++ evs').
  split; [by rewrite <- app_assoc|].
  rewrite started_app.
  change (started (EvStartTransaction (request_txn r tr) :: evs ++
                   [EvEnd (request_txn r tr)]))
    with (request_txn r tr :: started (evs ++ [EvEnd (request_txn r tr)])).
  rewrite started_app, (started_plain _ Hplain). cbn [started omap list_omap List.app].
  rewrite !fmap_cons. f_equal; [|exact Hnames].
  destruct Hr as [Hm _]. unfold request_txn. cbn [txn_name]. by rewrite Hm.
Qed.

Lemma serve_one_transaction_per_request_witness :
  Forall routed (accepted sample_env) ∧
  ∃ evs,
    (serve (mux sample_env sample_app sample_logger) (accepted sample_env) []).2 =
      [] ++ evs ∧
    txn_name <$> started evs =
      (λ r, "GET " +:+ Path (req_URL r)) <$> accepted sample_env.
Proof.
  assert (H : Forall routed (accepted sample_env)).
  { apply Forall_cons. split; [split; [reflexivity|right; reflexivity]|].
    apply Forall_cons. split; [split; [reflexivity|left; reflexivity]|].
    apply Forall_nil_2. }
  split; [exact H|].
  exact (serve_one_transaction_per_request sample_env sample_app sample_logger
           (accepted sample_env) [] H).
Defined.
